(** * Spoofr: the identity-spoofing state machine of [Spoofr.py]

    A shallow embedding of the plugin's engine ([_spoof_wifi],
    [_spoof_bluetooth], [_revert_spoof], [_log_spoof], [on_wifi_update],
    [on_webhook] and the capture of the original identity in [on_loaded])
    and the properties of its revert and failure handling.

    Conventions of the model.
    - The plugin object is a record [Plugin]; a run of a method is a
      function of the store that returns an outcome, the new store and the
      events it emitted, in order.
    - Everything outside the process (sub-processes, files, the GPS
      daemon, the random generator) is an environment [Env]: the n-th
      external operation succeeds when [ok env n] holds and reads
      [out env n]; the n-th random draw is [rnd env n].
    - [threading.Lock] is not reentrant: acquiring it while it is held
      does not return.  That outcome is [Blocked]. *)

From Stdlib Require Import String Ascii List Bool Arith ZArith QArith Lia.
Import ListNotations.
Close Scope Q_scope.
Open Scope nat_scope.
Open Scope string_scope.
Open Scope list_scope.

(** ** Python string operations used by the source

    A string of the model stands for a Python [str] of ASCII
    characters, one [ascii] for each character of the [str].  On these
    texts [is_space], [lower], [title] and [take] below are the
    operations of Python; outside ASCII Python knows more blanks and
    more letters than they do.  The statements on what the display
    shows and on the network name that is read are about texts of
    [is_ascii] characters, and say so. *)

Module PyStr.

(** A character of the ASCII range. *)
Definition is_ascii (c : ascii) : bool := Nat.ltb (nat_of_ascii c) 128.

(** The ASCII characters removed by [str.strip()] and separating the
    fields of [str.split()]: tab, line feed, vertical tab, form feed,
    carriage return, the four separators 28 to 31 and the space. *)
Definition is_space (c : ascii) : bool :=
  let n := nat_of_ascii c in
  (Nat.leb 9 n && Nat.leb n 13) || (Nat.leb 28 n && Nat.leb n 32).

Definition is_upper (c : ascii) : bool :=
  let n := nat_of_ascii c in Nat.leb 65 n && Nat.leb n 90.

Definition is_lower (c : ascii) : bool :=
  let n := nat_of_ascii c in Nat.leb 97 n && Nat.leb n 122.

Definition to_lower (c : ascii) : ascii :=
  if is_upper c then ascii_of_nat (nat_of_ascii c + 32) else c.

Definition to_upper (c : ascii) : ascii :=
  if is_lower c then ascii_of_nat (nat_of_ascii c - 32) else c.

(** [s.lower()] on ASCII text *)
Fixpoint lower (s : string) : string :=
  match s with
  | EmptyString => EmptyString
  | String c r => String (to_lower c) (lower r)
  end.

(** [s.title()] on ASCII text: a letter that follows a letter is
    lowered, any other letter is raised. *)
Fixpoint title_from (after_letter : bool) (s : string) : string :=
  match s with
  | EmptyString => EmptyString
  | String c r =>
      let letter := is_upper c || is_lower c in
      String (if after_letter then to_lower c else to_upper c)
             (title_from letter r)
  end.

Definition title (s : string) : string := title_from false s.

(** [s[:n]]: the first [n] characters *)
Fixpoint take (n : nat) (s : string) : string :=
  match n, s with
  | S k, String c r => String c (take k r)
  | _, _ => EmptyString
  end.

Fixpoint drop (n : nat) (s : string) : string :=
  match n, s with
  | S k, String _ r => drop k r
  | _, _ => s
  end.

Fixpoint lstrip (s : string) : string :=
  match s with
  | String c r => if is_space c then lstrip r else s
  | EmptyString => EmptyString
  end.

Fixpoint rstrip (s : string) : string :=
  match s with
  | EmptyString => EmptyString
  | String c r =>
      match rstrip r with
      | EmptyString => if is_space c then EmptyString else String c EmptyString
      | r' => String c r'
      end
  end.

(** [s.strip()] *)
Definition strip (s : string) : string := rstrip (lstrip s).

(** The text before the first occurrence of [sep] and the text after it. *)
Fixpoint cut (sep s : string) : option (string * string) :=
  if prefix sep s then Some (EmptyString, drop (String.length sep) s)
  else match s with
       | EmptyString => None
       | String c r =>
           match cut sep r with
           | Some (a, b) => Some (String c a, b)
           | None => None
           end
       end.

(** [sub in s] *)
Definition contains (sub s : string) : bool :=
  match cut sub s with Some _ => true | None => false end.

Fixpoint split_fuel (fuel : nat) (sep s : string) : list string :=
  match fuel with
  | O => [s]
  | S k =>
      match cut sep s with
      | Some (a, b) => a :: split_fuel k sep b
      | None => [s]
      end
  end.

(** [s.split(sep)] for a non-empty [sep]. *)
Definition split (sep s : string) : list string :=
  split_fuel (String.length s) sep s.

(** The first whitespace-delimited word of [s], that is [s.split()[0]];
    [None] stands for the [IndexError] of an all-blank string. *)
Fixpoint word (s : string) : string :=
  match s with
  | EmptyString => EmptyString
  | String c r => if is_space c then EmptyString else String c (word r)
  end.

Definition first_word (s : string) : option string :=
  match lstrip s with
  | EmptyString => None
  | t => Some (word t)
  end.

Definition LF : string := String (ascii_of_nat 10) EmptyString.

(** [s.split("\n")] *)
Definition lines (s : string) : list string := split LF s.

(** What a file opened in text mode hands out of its contents: with
    the default [newline=None] a carriage return followed by a line
    feed, and a carriage return alone, are each read as one line feed. *)
Fixpoint universal (s : string) : string :=
  match s with
  | EmptyString => EmptyString
  | String c r =>
      if Nat.eqb (nat_of_ascii c) 13
      then match r with
           | String c' r' =>
               if Nat.eqb (nat_of_ascii c') 10
               then String c' (universal r')
               else String (ascii_of_nat 10) (universal r)
           | EmptyString => String (ascii_of_nat 10) EmptyString
           end
      else String c (universal r)
  end.

(** The lines [for line in f] yields, each without the newline that
    ends it and that [strip] removes anyway; when the text ends in a
    newline an empty line follows, which starts with nothing the source
    looks for. *)
Definition file_lines (s : string) : list string := lines (universal s).

Definition hex_digit (n : nat) : ascii :=
  if Nat.ltb n 10 then ascii_of_nat (48 + n) else ascii_of_nat (87 + n).

(** [f"{n:02x}"] for [0 <= n <= 255] *)
Definition hex2 (n : nat) : string :=
  String (hex_digit (n / 16)) (String (hex_digit (n mod 16)) EmptyString).

(** [sep.join(l)] *)
Fixpoint join (sep : string) (l : list string) : string :=
  match l with
  | [] => EmptyString
  | [x] => x
  | x :: r => x ++ sep ++ join sep r
  end.

End PyStr.

(** ** Values decoded from a request body *)

#[local] Set Warnings "-register-all".

Inductive Json : Type :=
| JNull
| JBool (b : bool)
| JNum (z : Z)
| JStr (s : string)
| JArr (l : list Json)
| JObj (kv : list (string * Json)).

(** [v == s] for a Python string [s]: only a string equals a string. *)
Definition py_eq_str (v : Json) (s : string) : bool :=
  match v with
  | JStr t => String.eqb t s
  | _ => false
  end.

Fixpoint lookup (k : string) (kv : list (string * Json)) : option Json :=
  match kv with
  | [] => None
  | (k', v) :: r => if String.eqb k k' then Some v else lookup k r
  end.

(** A spoofed identity, the dict [{"type": ..., "name": ...}] of the
    source.  Polls build it from strings; the control endpoint stores
    whatever values the request carried. *)
Record Spoof : Type := mkSpoof { s_type : Json; s_name : Json }.

(** Dict comparison against a record whose two values are strings. *)
Definition spoof_is (cur : option Spoof) (t n : string) : bool :=
  match cur with
  | Some c => py_eq_str (s_type c) t && py_eq_str (s_name c) n
  | None => false
  end.

(** Truth value of an attribute that is [None] or a string. *)
Definition truthy (o : option string) : bool :=
  match o with
  | Some EmptyString => false
  | Some _ => true
  | None => false
  end.

Definition str_or_empty (o : option string) : string :=
  match o with Some s => s | None => EmptyString end.

(** ** The world outside the process *)

(** Operations on the device: the sub-processes and the configuration
    files through which the source reads and changes the identity. *)
Inductive Command : Type :=
| ReadHostapdConf                      (* open("/etc/hostapd/hostapd.conf").read() *)
| WriteTmpConf (ssid : Json)           (* re.sub(...) written to /tmp/hostapd.conf *)
| MoveConf                             (* sudo mv /tmp/hostapd.conf /etc/hostapd/hostapd.conf *)
| IfDown (ifc : string)                (* sudo ifconfig <ifc> down *)
| IfHwEther (ifc mac : string)         (* sudo ifconfig <ifc> hw ether <mac> *)
| IfUp (ifc : string)                  (* sudo ifconfig <ifc> up *)
| RestartHostapd                       (* sudo systemctl restart hostapd *)
| HciSetName (ifc name : string)       (* sudo hciconfig <ifc> name <name> *)
| HciGetName (ifc : string)            (* hciconfig <ifc> name *)
| Ifconfig (ifc : string).             (* ifconfig <ifc> *)

Inductive Exn : Type :=
| Failed (c : Command)   (* CalledProcessError, OSError of a device operation *)
| LogIOError             (* the log file could not be appended to *)
| GpsError               (* gpsd raised *)
| TypeError
| IndexError
| KeyError
| AttributeError
| BadBody.               (* request.body.decode() or json.loads raised *)

Record Packet : Type := mkPacket {
  p_mode : Z; p_lat : Q; p_lon : Q; p_alt : Q; p_time : string; p_sats : Z }.

Record GpsData : Type := mkGps {
  Latitude : Q; Longitude : Q; Altitude : Q; Time : string; Satellites : Z }.

Record LogEntry : Type := mkEntry {
  timestamp : string; spoof : option Spoof; gps : option GpsData }.

Inductive Level : Type := Info | Warning | Error.

(** The messages of the [logging] channel, one constructor per call
    site; [str(e)] is kept as the exception itself. *)
Inductive Msg : Type :=
| MsgUnloaded
| MsgOriginal (ssid bt mac : option string)
| MsgSaveOriginalFailed (e : Exn)
| MsgReadSsidFailed (e : Exn)
| MsgGpsFetchError (e : Exn)
| MsgSpoofedWifi (ssid : Json)
| MsgSpoofWifiFailed (e : Exn)
| MsgSpoofedBluetooth (name : Json)
| MsgSpoofBluetoothFailed (e : Exn)
| MsgReverted
| MsgRevertFailed (e : Exn)
| MsgLogFailed (e : Exn)
| MsgNoDetector
| MsgWebhookError (e : Exn).

(** What [components.update("spoof_info", value=...)] is given: the
    name cut to 20 items and the title-cased type. *)
Inductive Display : Type :=
| ShowNone
| ShowSpoof (name20 : Json) (kind : string).

Inductive Event : Type :=
| Run (c : Command) (succeeded : bool)   (* a device operation and its result *)
| Diag (l : Level) (m : Msg)             (* logging.info / warning / error *)
| Append (e : LogEntry)                  (* one line added to the log file *)
| GpsQuery (succeeded : bool)            (* gpsd.get_current() *)
| Ui (d : Display)                       (* components.update *)
| UiRemove.                              (* components.remove *)

Record Env : Type := mkEnv {
  ok : nat -> bool;        (* does the n-th external operation succeed *)
  out : nat -> string;     (* what the n-th external operation reads *)
  packet : nat -> Packet;  (* the fix the n-th external operation reads *)
  rnd : nat -> nat }.      (* the n-th draw of the random generator *)

(** ** The plugin object *)

Record Options : Type := mkOptions {
  spoof_targets : list string;
  randomize_mac : bool;
  log_file : string;
  check_interval : Q;
  bluetooth_interface : string;
  wifi_interface : string }.

Record Plugin : Type := mkPlugin {
  options : Options;
  _gps_available : bool;
  _last_spoof : Q;
  _current_spoof : option Spoof;
  _original_ssid : option string;
  _original_bt_name : option string;
  _original_mac : option string }.

(** [__init__] with the given options. *)
Definition init (o : Options) : Plugin :=
  mkPlugin o false 0%Q None None None None.

Definition set_current_spoof (v : option Spoof) (p : Plugin) : Plugin :=
  mkPlugin (options p) (_gps_available p) (_last_spoof p) v
           (_original_ssid p) (_original_bt_name p) (_original_mac p).

Definition set_last_spoof (t : Q) (p : Plugin) : Plugin :=
  mkPlugin (options p) (_gps_available p) t (_current_spoof p)
           (_original_ssid p) (_original_bt_name p) (_original_mac p).

Definition set_original_ssid (v : option string) (p : Plugin) : Plugin :=
  mkPlugin (options p) (_gps_available p) (_last_spoof p) (_current_spoof p)
           v (_original_bt_name p) (_original_mac p).

Definition set_original_bt_name (v : option string) (p : Plugin) : Plugin :=
  mkPlugin (options p) (_gps_available p) (_last_spoof p) (_current_spoof p)
           (_original_ssid p) v (_original_mac p).

Definition set_original_mac (v : option string) (p : Plugin) : Plugin :=
  mkPlugin (options p) (_gps_available p) (_last_spoof p) (_current_spoof p)
           (_original_ssid p) (_original_bt_name p) v.

(** The store: the plugin object, whether [self._lock] is held, and how
    many external operations and random draws have happened. *)
Record Store : Type := mkStore {
  self : Plugin; locked : bool; tick : nat; draws : nat }.

Definition with_self (f : Plugin -> Plugin) (s : Store) : Store :=
  mkStore (f (self s)) (locked s) (tick s) (draws s).

Definition with_locked (b : bool) (s : Store) : Store :=
  mkStore (self s) b (tick s) (draws s).

Definition ticked (s : Store) : Store :=
  mkStore (self s) (locked s) (S (tick s)) (draws s).

Definition drawn (s : Store) : Store :=
  mkStore (self s) (locked s) (tick s) (S (draws s)).

(** ** Runs *)

Inductive Outcome (A : Type) : Type :=
| Done (a : A)      (* the call returned [a] *)
| Raised (e : Exn)  (* the call raised [e] *)
| Blocked.          (* the call waits for a lock that is never released *)

Arguments Done {A} a.
Arguments Raised {A} e.
Arguments Blocked {A}.

Definition M (A : Type) : Type := Store -> Outcome A * Store * list Event.

Definition outcome {A} (r : Outcome A * Store * list Event) : Outcome A :=
  fst (fst r).
Definition store {A} (r : Outcome A * Store * list Event) : Store :=
  snd (fst r).
Definition events {A} (r : Outcome A * Store * list Event) : list Event :=
  snd r.

Definition ret {A} (a : A) : M A := fun s => (Done a, s, []).

Definition bind {A B} (m : M A) (k : A -> M B) : M B :=
  fun s =>
    match m s with
    | (Done a, s1, ev1) =>
        match k a s1 with (o, s2, ev2) => (o, s2, ev1 ++ ev2) end
    | (Raised e, s1, ev1) => (Raised e, s1, ev1)
    | (Blocked, s1, ev1) => (Blocked, s1, ev1)
    end.

Notation "x <- m ;; k" := (bind m (fun x => k))
  (at level 100, m at next level, right associativity).
Notation "m ;; k" := (bind m (fun _ => k))
  (at level 100, right associativity).

Definition raise {A} (e : Exn) : M A := fun s => (Raised e, s, []).

(** [try: m  except Exception as e: h e] *)
Definition try_except {A} (m : M A) (h : Exn -> M A) : M A :=
  fun s =>
    match m s with
    | (Raised e, s1, ev1) =>
        match h e s1 with (o, s2, ev2) => (o, s2, ev1 ++ ev2) end
    | r => r
    end.

Definition emit (e : Event) : M unit := fun s => (Done tt, s, [e]).
Definition get : M Plugin := fun s => (Done (self s), s, []).
Definition modify (f : Plugin -> Plugin) : M unit :=
  fun s => (Done tt, with_self f s, []).

(** [with self._lock: m].  The lock is released when the block returns
    or raises; a block that never finishes keeps it. *)
Definition with_lock {A} (m : M A) : M A :=
  fun s =>
    if locked s then (Blocked, s, [])
    else match m (with_locked true s) with
         | (Blocked, s1, ev) => (Blocked, s1, ev)
         | (o, s1, ev) => (o, with_locked false s1, ev)
         end.

Section Engine.

Variable env : Env.

(** A device operation run with [check=True]: it raises when it fails. *)
Definition run (c : Command) : M unit :=
  fun s =>
    if ok env (tick s) then (Done tt, ticked s, [Run c true])
    else (Raised (Failed c), ticked s, [Run c false]).

(** A device operation whose output is read. *)
Definition read (c : Command) : M string :=
  fun s =>
    if ok env (tick s) then (Done (out env (tick s)), ticked s, [Run c true])
    else (Raised (Failed c), ticked s, [Run c false]).

(** [random.randint(0, 255)] *)
Definition randint256 : M nat :=
  fun s => (Done (rnd env (draws s) mod 256), drawn s, []).

(** [random.choice(l)] on a non-empty list with default [d]. *)
Definition choice {A} (d : A) (l : list A) : M A :=
  fun s => (Done (nth (rnd env (draws s) mod length l) l d), drawn s, []).

(** [gpsd.get_current()] *)
Definition gps_get_current : M Packet :=
  fun s =>
    if ok env (tick s) then (Done (packet env (tick s)), ticked s, [GpsQuery true])
    else (Raised GpsError, ticked s, [GpsQuery false]).

(** [time.strftime("%Y-%m-%d %H:%M:%S")] *)
Definition strftime : M string :=
  fun s => (Done (out env (tick s)), ticked s, []).

(** [with open(log_file, "a") as f: json.dump(data, f); f.write("\n")] *)
Definition append_line (e : LogEntry) : M unit :=
  fun s =>
    if ok env (tick s) then (Done tt, ticked s, [Append e])
    else (Raised LogIOError, ticked s, []).

(** [l[1]] *)
Definition item1 (l : list string) : M string :=
  match nth_error l 1 with
  | Some v => ret v
  | None => raise IndexError
  end.

(** *** Reading the current identity (lines 123-150) *)

Fixpoint scan_ssid (ls : list string) : M (option string) :=
  match ls with
  | [] => ret None
  | line :: rest =>
      if prefix "ssid=" line
      then v <- item1 (PyStr.split "=" (PyStr.strip line));; ret (Some v)
      else scan_ssid rest
  end.

Definition _get_current_ssid : M string :=
  r <- try_except
         (text <- read ReadHostapdConf;; scan_ssid (PyStr.file_lines text))
         (fun e => emit (Diag Error (MsgReadSsidFailed e));; ret None);;
  match r with
  | Some v => ret v
  | None => ret "pwnagotchi"
  end.

Definition _get_current_bt_name : M string :=
  try_except
    (p <- get;;
     text <- read (HciGetName (bluetooth_interface (options p)));;
     item1 (PyStr.split ": " (PyStr.strip text)))
    (fun _ => ret "pwnagotchi").

Fixpoint scan_mac (ls : list string) : M (option string) :=
  match ls with
  | [] => ret None
  | line :: rest =>
      if PyStr.contains "ether" line
      then after <- item1 (PyStr.split "ether" (PyStr.strip line));;
           match PyStr.first_word (PyStr.strip after) with
           | Some w => ret (Some w)
           | None => raise IndexError
           end
      else scan_mac rest
  end.

Definition _get_current_mac : M (option string) :=
  try_except
    (p <- get;;
     text <- read (Ifconfig (wifi_interface (options p)));;
     scan_mac (PyStr.lines text))
    (fun _ => ret None).

(** The block "Save original settings" of [on_loaded] (lines 95-102). *)
Definition on_loaded : M unit :=
  try_except
    (ssid <- _get_current_ssid;;
     modify (set_original_ssid (Some ssid));;
     bt <- _get_current_bt_name;;
     modify (set_original_bt_name (Some bt));;
     mac <- _get_current_mac;;
     modify (set_original_mac mac);;
     emit (Diag Info (MsgOriginal (Some ssid) (Some bt) mac)))
    (fun e => emit (Diag Error (MsgSaveOriginalFailed e))).

(** *** [_get_gps_data] (lines 152-169) *)

Definition _get_gps_data : M (option GpsData) :=
  p <- get;;
  if negb (_gps_available p) then ret None
  else try_except
         (pk <- gps_get_current;;
          if (2 <=? p_mode pk)%Z
          then ret (Some (mkGps (p_lat pk) (p_lon pk)
                                (if (p_mode pk =? 3)%Z then p_alt pk else 0%Q)
                                (p_time pk) (p_sats pk)))
          else ret None)
         (fun e => emit (Diag Warning (MsgGpsFetchError e));; ret None).

(** *** Applying an identity (lines 171-203) *)

(** [":".join([f"{random.randint(0, 255):02x}" for _ in range(6)])] *)
Definition random_mac : M string :=
  a <- randint256;; b <- randint256;; c <- randint256;;
  d <- randint256;; e <- randint256;; f <- randint256;;
  ret (PyStr.join ":" (map PyStr.hex2 [a; b; c; d; e; f])).

(** The interface is taken down, given the address and brought up. *)
Definition set_mac (mac : string) : M unit :=
  p <- get;;
  run (IfDown (wifi_interface (options p)));;
  run (IfHwEther (wifi_interface (options p)) mac);;
  run (IfUp (wifi_interface (options p))).

Definition _spoof_wifi (ssid : Json) : M bool :=
  try_except
    (_ <- read ReadHostapdConf;;
     run (WriteTmpConf ssid);;
     run MoveConf;;
     p <- get;;
     (if randomize_mac (options p)
      then new_mac <- random_mac;; set_mac new_mac
      else ret tt);;
     run RestartHostapd;;
     emit (Diag Info (MsgSpoofedWifi ssid));;
     ret true)
    (fun e => emit (Diag Error (MsgSpoofWifiFailed e));; ret false).

(** [subprocess.run] refuses an argument that is not a string before it
    starts the process. *)
Definition _spoof_bluetooth (name : Json) : M bool :=
  try_except
    (p <- get;;
     match name with
     | JStr n => run (HciSetName (bluetooth_interface (options p)) n)
     | _ => raise TypeError
     end;;
     emit (Diag Info (MsgSpoofedBluetooth name));;
     ret true)
    (fun e => emit (Diag Error (MsgSpoofBluetoothFailed e));; ret false).

(** *** [_revert_spoof] (lines 205-220) *)

Definition _revert_spoof : M unit :=
  try_except
    (p <- get;;
     match _current_spoof p with
     | Some cur =>
         (if py_eq_str (s_type cur) "wifi" && truthy (_original_ssid p)
          then _spoof_wifi (JStr (str_or_empty (_original_ssid p)));;
               p' <- get;;
               if randomize_mac (options p') && truthy (_original_mac p')
               then set_mac (str_or_empty (_original_mac p'))
               else ret tt
          else if py_eq_str (s_type cur) "bluetooth"
                  && truthy (_original_bt_name p)
          then _spoof_bluetooth (JStr (str_or_empty (_original_bt_name p)));;
               ret tt
          else ret tt);;
         modify (set_current_spoof None);;
         emit (Diag Info MsgReverted)
     | None => ret tt
     end)
    (fun e => emit (Diag Error (MsgRevertFailed e))).

(** *** [_log_spoof] (lines 222-238) *)

Definition _log_spoof : M unit :=
  p <- get;;
  if String.eqb (log_file (options p)) "" then ret tt
  else try_except
         (with_lock
            (gps_data <- _get_gps_data;;
             ts <- strftime;;
             p' <- get;;
             append_line (mkEntry ts (_current_spoof p') gps_data)))
         (fun e => emit (Diag Error (MsgLogFailed e))).

(** *** [_update_ui] (lines 281-287) *)

(** [name[:20]] *)
Definition slice20 (v : Json) : M Json :=
  match v with
  | JStr s => ret (JStr (PyStr.take 20 s))
  | JArr l => ret (JArr (firstn 20 l))
  | _ => raise TypeError
  end.

(** [type.title()] *)
Definition title_of (v : Json) : M string :=
  match v with
  | JStr s => ret (PyStr.title s)
  | _ => raise AttributeError
  end.

Definition _update_ui : M unit :=
  with_lock
    (p <- get;;
     d <- match _current_spoof p with
          | Some cur =>
              n <- slice20 (s_name cur);;
              k <- title_of (s_type cur);;
              ret (ShowSpoof n k)
          | None => ret ShowNone
          end;;
     emit (Ui d)).

Definition on_ui_update : M unit := _update_ui.

(** *** [on_unloaded] (lines 117-121) *)

Definition on_unloaded : M unit :=
  emit (Diag Info MsgUnloaded);;
  _revert_spoof;;
  with_lock (emit UiRemove).

(** *** [on_wifi_update] (lines 240-279) *)

(** What the poll reads from the detector plugin: the names of
    [_pwnagotchis.values()] and the (type, name) pairs of
    [_flippers.values()], in iteration order. *)
Record Detector : Type := mkDetector {
  _pwnagotchis : list string;
  _flippers : list (string * string) }.

(** [x in l] for a list of strings *)
Definition mem (x : string) (l : list string) : bool :=
  existsb (String.eqb x) l.

(** The candidates, as (type, name) pairs. *)
Definition candidates_of (o : Options) (d : Detector) : list (string * string) :=
  (if mem "pwnagotchi" (spoof_targets o)
   then map (fun n => ("wifi", n)) (_pwnagotchis d) else [])
  ++ (if mem "flipper" (spoof_targets o)
      then map (fun i => (PyStr.lower (fst i), snd i)) (_flippers d) else []).

Definition Qltb (a b : Q) : bool := negb (Qle_bool b a).

Definition is_nil {A} (l : list A) : bool :=
  match l with [] => true | _ => false end.

(** [success = self._spoof_wifi(name) if type == "wifi" else
    self._spoof_bluetooth(name); if success: self._current_spoof =
    new_spoof; self._log_spoof()], written out in both the poll and the
    control endpoint. *)
Definition apply (new_spoof : Spoof) : M bool :=
  if py_eq_str (s_type new_spoof) "wifi"
  then _spoof_wifi (s_name new_spoof)
  else _spoof_bluetooth (s_name new_spoof).

Definition apply_and_record (new_spoof : Spoof) : M unit :=
  success <- apply new_spoof;;
  if success
  then modify (set_current_spoof (Some new_spoof));; _log_spoof
  else ret tt.

(** [now] is the value of [time.time()], [detector] the entry
    [plugins.loaded["pwn_detector"]] when there is one. *)
Definition on_wifi_update (now : Q) (detector : option Detector) : M unit :=
  p <- get;;
  if Qltb (now - _last_spoof p) (check_interval (options p)) then ret tt
  else
    modify (set_last_spoof now);;
    match detector with
    | None =>
        emit (Diag Warning MsgNoDetector);;
        _revert_spoof;;
        _update_ui
    | Some pwn_detector =>
        with_lock
          (let candidates := candidates_of (options p) pwn_detector in
           if is_nil candidates
           then _revert_spoof;; _update_ui
           else
             new_spoof <- choice ("", "") candidates;;
             p' <- get;;
             (if negb (spoof_is (_current_spoof p') (fst new_spoof) (snd new_spoof))
              then _revert_spoof;;
                   apply_and_record
                     (mkSpoof (JStr (fst new_spoof)) (JStr (snd new_spoof)))
              else ret tt);;
             _update_ui)
    end.

(** *** The POST branch of [on_webhook] (lines 296-314) *)

Inductive Response : Type :=
| StatusSuccess              (* {"status": "success"} *)
| StatusError (e : Exn).     (* {"status": "error", "message": str(e)} *)

(** [k in data] *)
Definition py_in (k : string) (data : Json) : M bool :=
  match data with
  | JObj kv => ret (match lookup k kv with Some _ => true | None => false end)
  | JArr l => ret (existsb (fun v => py_eq_str v k) l)
  | JStr s => ret (PyStr.contains k s)
  | _ => raise TypeError
  end.

(** [data[k]], evaluated only after [k in data] held *)
Definition py_getitem (data : Json) (k : string) : M Json :=
  match data with
  | JObj kv => match lookup k kv with
               | Some v => ret v
               | None => raise KeyError
               end
  | _ => raise TypeError
  end.

(** [body] is the value of [json.loads(request.body.decode())], or
    [None] when that raises. *)
Definition on_webhook_post (body : option Json) : M Response :=
  try_except
    (data <- match body with Some d => ret d | None => raise BadBody end;;
     has_action <- py_in "action" data;;
     (if has_action then
        action <- py_getitem data "action";;
        if py_eq_str action "revert" then _revert_spoof
        else if py_eq_str action "spoof" then
          has_type <- py_in "type" data;;
          has_name <- (if has_type then py_in "name" data else ret false);;
          if has_type && has_name then
            with_lock
              (_revert_spoof;;
               t <- py_getitem data "type";;
               n <- py_getitem data "name";;
               apply_and_record (mkSpoof t n));;
            _update_ui
          else ret tt
        else ret tt
      else ret tt);;
     ret StatusSuccess)
    (fun e => emit (Diag Error (MsgWebhookError e));; ret (StatusError e)).

End Engine.

(** ** Observations on the events of a run *)

Definition is_run (e : Event) : bool :=
  match e with Run _ _ => true | _ => false end.

Definition is_append (e : Event) : bool :=
  match e with Append _ => true | _ => false end.

(** The device operations among the events. *)
Definition driver_calls (ev : list Event) : list Event := filter is_run ev.

(** The lines added to the log file among the events. *)
Definition log_appends (ev : list Event) : list Event := filter is_append ev.

(** The three operations that change the hardware address. *)
Definition is_cycle (c : Command) : bool :=
  match c with
  | IfDown _ | IfHwEther _ _ | IfUp _ => true
  | _ => false
  end.

Definition is_revert_failure (e : Event) : bool :=
  match e with Diag Error (MsgRevertFailed _) => true | _ => false end.

Definition is_revert_report (e : Event) : bool :=
  match e with
  | Diag Info MsgReverted | Diag Error (MsgRevertFailed _) => true
  | _ => false
  end.

Definition is_set_name_report (e : Event) : bool :=
  match e with
  | Diag Info (MsgSpoofedWifi _) | Diag Error (MsgSpoofWifiFailed _)
  | Diag Info (MsgSpoofedBluetooth _)
  | Diag Error (MsgSpoofBluetoothFailed _) => true
  | _ => false
  end.

(** Did a run of [_revert_spoof] end in its own [except] clause. *)
Definition revert_failed (ev : list Event) : bool :=
  existsb is_revert_failure ev.

(** How many runs of [_revert_spoof] on an active spoof ended: each
    leaves one message, "Reverted ..." or "Failed to revert ...". *)
Definition revert_reports (ev : list Event) : nat :=
  length (filter is_revert_report ev).

(** How many calls of [_spoof_wifi] and [_spoof_bluetooth] ended: each
    leaves one message, "Spoofed ..." or "Failed to spoof ...". *)
Definition set_name_calls (ev : list Event) : nat :=
  length (filter is_set_name_report ev).

(** Every device operation that failed is followed up on the
    diagnostic channel. *)
Definition failures_logged (ev : list Event) : Prop :=
  forall c, In (Run c false) ev -> exists m, In (Diag Error m) ev.

(** Does a revert started in store [s] go on to restore the hardware
    address: a network-name spoof is active, an original name is
    recorded, address randomisation is on and an original address is
    recorded (the tests of lines 208, 209 and 211). *)
Definition restores_address (s : Store) : bool :=
  match _current_spoof (self s) with
  | Some cur =>
      py_eq_str (s_type cur) "wifi" && truthy (_original_ssid (self s))
      && (randomize_mac (options (self s)) && truthy (_original_mac (self s)))
  | None => false
  end.

(** The number of the external operation with which that restoration
    starts: the first one after the call of [_spoof_wifi] that puts the
    original name back (line 210). *)
Definition address_restore_start (env : Env) (s : Store) : nat :=
  tick (store (_spoof_wifi env (JStr (str_or_empty (_original_ssid (self s)))) s)).

(** Does a revert started in store [s] restore the hardware address and
    meet a failure in one of the three operations that do it: taking
    the interface down, setting the address, bringing the interface up
    (lines 212-214).  Each is run only when the one before succeeded. *)
Definition address_restore_fails (env : Env) (s : Store) : bool :=
  restores_address s
  && negb (ok env (address_restore_start env s)
           && ok env (1 + address_restore_start env s)
           && ok env (2 + address_restore_start env s)).

(** The store of a poll that passed the rate limit and took the lock,
    before and after [random.choice]. *)
Definition poll_entry (now : Q) (s : Store) : Store :=
  with_locked true (with_self (set_last_spoof now) s).

Definition poll_store (now : Q) (s : Store) : Store := drawn (poll_entry now s).

(** The candidate [random.choice] returns in store [s]. *)
Definition chosen (env : Env) (cands : list (string * string)) (s : Store)
  : string * string :=
  nth (rnd env (draws s) mod length cands) cands ("", "").

Definition spoof_of (c : string * string) : Spoof :=
  mkSpoof (JStr (fst c)) (JStr (snd c)).

(** The request bodies that name a command the endpoint acts on: an
    object whose "action" is "revert", or is "spoof" with both a "type"
    and a "name".  Every other body, and a body that cannot be decoded,
    is malformed. *)
Definition is_command (data : Json) : bool :=
  match data with
  | JObj kv =>
      match lookup "action" kv with
      | Some a =>
          py_eq_str a "revert"
          || (py_eq_str a "spoof"
              && match lookup "type" kv, lookup "name" kv with
                 | Some _, Some _ => true
                 | _, _ => false
                 end)
      | None => false
      end
  | _ => false
  end.

(** ** Sample values *)

Module Sample.

(** [__defaults__] *)
Definition defaults : Options :=
  mkOptions ["pwnagotchi"; "flipper"] true "/var/log/spoofr.json" 60%Q
            "hci0" "wlan0".

Definition blank : Packet := mkPacket 0 0%Q 0%Q 0%Q "" 0.

(** Every external operation succeeds. *)
Definition all_ok : Env :=
  mkEnv (fun _ => true) (fun _ => "") (fun _ => blank) (fun _ => 0).

(** Only the external operation number [k] fails. *)
Definition fails_at (k : nat) : Env :=
  mkEnv (fun n => negb (Nat.eqb n k)) (fun _ => "") (fun _ => blank)
        (fun _ => 0).

(** Only the external operations number [j] and [k] fail. *)
Definition fails_at2 (j k : nat) : Env :=
  mkEnv (fun n => negb (Nat.eqb n j || Nat.eqb n k)) (fun _ => "")
        (fun _ => blank) (fun _ => 0).

(** The plugin after a load that captured the three original values. *)
Definition loaded : Plugin :=
  mkPlugin defaults false 0%Q None (Some "home-ap") (Some "home-bt")
           (Some "b8:27:eb:00:00:01").

Definition unitA : Spoof := mkSpoof (JStr "wifi") (JStr "unitA").
Definition flip1 : Spoof := mkSpoof (JStr "bluetooth") (JStr "flip1").

Definition idle : Store := mkStore loaded false 0 0.

Definition spoofing (r : Spoof) : Store :=
  mkStore (set_current_spoof (Some r) loaded) false 0 0.

Definition sees_unitA : Detector := mkDetector ["unitA"] [].
Definition sees_flip1 : Detector := mkDetector [] [("Bluetooth", "flip1")].
Definition sees_nothing : Detector := mkDetector [] [].

(** The body [{"action": "spoof"}] *)
Definition spoof_without_target : Json := JObj [("action", JStr "spoof")].


(** An idle plugin with no log file configured. *)
Definition idle_no_log : Store :=
  mkStore (mkPlugin (mkOptions ["pwnagotchi"; "flipper"] true "" 60%Q
                               "hci0" "wlan0")
                    false 0%Q None (Some "home-ap") (Some "home-bt")
                    (Some "b8:27:eb:00:00:01"))
          false 0 0.

(** The body [{"action": "spoof", "type": "wifi", "name": "unitA"}] *)
Definition spoof_wifi_unitA : Json :=
  JObj [("action", JStr "spoof"); ("type", JStr "wifi");
        ("name", JStr "unitA")].


(** The plugin without a log file after it served the request for
    "unitA" with every operation succeeding (operations 0 to 6): the
    spoof is active and the lock is free. *)
Definition spoofing_unitA : Store :=
  store (on_webhook_post all_ok (Some spoof_wifi_unitA) idle_no_log).


End Sample.
(** ** Further observations *)

(** The fields of the plugin object that are set while it loads and
    read afterwards: the options, the availability of the GPS and the
    captured original identity. *)
Definition configuration_kept (p p' : Plugin) : Prop :=
  options p' = options p
  /\ _gps_available p' = _gps_available p
  /\ _original_ssid p' = _original_ssid p
  /\ _original_bt_name p' = _original_bt_name p
  /\ _original_mac p' = _original_mac p.

(** A run that leaves those fields alone, from every store. *)
Definition keeps_configuration {A} (m : M A) : Prop :=
  forall s, configuration_kept (self s) (self (store (m s))).

(** A run that adds nothing to the log file, from every store. *)
Definition never_appends {A} (m : M A) : Prop :=
  forall s, log_appends (events (m s)) = [].

(** A run that, started while the lock is held, adds nothing to the log
    file and ends with the lock still held. *)
Definition quiet_under_lock {A} (m : M A) : Prop :=
  forall s,
    locked s = true ->
    log_appends (events (m s)) = [] /\ locked (store (m s)) = true.

(** A run in which every device operation that failed is followed up on
    the diagnostic channel, from every store. *)
Definition reports_failures {A} (m : M A) : Prop :=
  forall s, failures_logged (events (m s)).

Definition is_if_up (e : Event) : bool :=
  match e with Run (IfUp _) _ => true | _ => false end.

Definition is_restart (e : Event) : bool :=
  match e with Run RestartHostapd _ => true | _ => false end.

(** The characters of a hardware address as [random_mac] writes it. *)
Definition is_hex_or_colon (c : ascii) : bool :=
  let n := nat_of_ascii c in
  (Nat.leb 48 n && Nat.leb n 57) || (Nat.leb 97 n && Nat.leb n 102)
  || Nat.eqb n 58.

(** ** The validation of the display options in [on_loaded] (lines 64-73) *)








(** ** Sequences of calls *)

(** The entry points the host calls after the plugin has loaded. *)
Inductive Call : Type :=
| CallWifiUpdate (now : Q) (detector : option Detector)
| CallWebhookPost (body : option Json)
| CallUiUpdate
| CallUnloaded.

(** The store and the events a call leaves, whether it returned, raised
    or is still waiting for the lock. *)
Definition call (env : Env) (c : Call) (s : Store) : Store * list Event :=
  match c with
  | CallWifiUpdate now detector =>
      let r := on_wifi_update env now detector s in (store r, events r)
  | CallWebhookPost body =>
      let r := on_webhook_post env body s in (store r, events r)
  | CallUiUpdate =>
      let r := on_ui_update s in (store r, events r)
  | CallUnloaded =>
      let r := on_unloaded env s in (store r, events r)
  end.

(** The store after a sequence of calls, each started in the store the
    previous one left, and all the events in order. *)
Fixpoint calls (env : Env) (cs : list Call) (s : Store) : Store * list Event :=
  match cs with
  | [] => (s, [])
  | c :: rest =>
      let (s1, ev1) := call env c s in
      let (s2, ev2) := calls env rest s1 in
      (s2, ev1 ++ ev2)
  end.

(** ** Failures and their messages *)

(** Is every failed device operation followed at once by an error on
    the diagnostic channel. *)
Fixpoint promptly_logged (ev : list Event) : bool :=
  match ev with
  | [] => true
  | Run _ false :: rest =>
      match rest with
      | Diag Error _ :: _ => promptly_logged rest
      | _ => false
      end
  | _ :: rest => promptly_logged rest
  end.

(** A run whose events are promptly logged, from every store. *)
Definition tidy {A} (m : M A) : Prop :=
  forall s, promptly_logged (events (m s)) = true.

(** A run whose events are promptly logged except, when it raises, for
    a failed device operation at the very end: the one that raised. *)
Definition tidy_until_raise {A} (m : M A) : Prop :=
  forall s,
    promptly_logged (events (m s)) = true
    \/ exists pre c e,
         events (m s) = pre ++ [Run c false]
         /\ promptly_logged pre = true
         /\ outcome (m s) = Raised e.

(** An [except] clause that starts by logging an error. *)
Definition logs_first {A} (h : Exn -> M A) : Prop :=
  forall e s,
    exists msg rest,
      events (h e s) = Diag Error msg :: rest
      /\ promptly_logged rest = true.

(** ** Texts *)

(** Does every character of [s] satisfy [p]. *)
Fixpoint every (p : ascii -> bool) (s : string) : bool :=
  match s with
  | EmptyString => true
  | String c r => p c && every p r
  end.


(** A text of ASCII characters. *)
Definition ascii_text (s : string) : bool := every PyStr.is_ascii s.

(** A run that leaves the time of the last accepted poll alone, from
    every store. *)
Definition keeps_last_spoof {A} (m : M A) : Prop :=
  forall s, _last_spoof (self (store (m s))) = _last_spoof (self s).

Definition is_poll (c : Call) : bool :=
  match c with CallWifiUpdate _ _ => true | _ => false end.

(** * Proofs *)

#[local] Arguments Nat.modulo : simpl never.
#[local] Arguments PyStr.join : simpl never.
#[local] Arguments PyStr.hex2 : simpl never.
#[local] Arguments PyStr.split : simpl never.
#[local] Arguments PyStr.strip : simpl never.
#[local] Arguments PyStr.lines : simpl never.
#[local] Arguments PyStr.file_lines : simpl never.
#[local] Arguments String.eqb : simpl never.
#[local] Arguments nth_error : simpl never.
#[local] Arguments PyStr.take : simpl never.
#[local] Arguments PyStr.title : simpl never.


Lemma failures_logged_app ev1 ev2 :
  failures_logged ev1 -> failures_logged ev2 -> failures_logged (ev1 ++ ev2).
Proof.
  intros H1 H2 c Hc. apply in_app_or in Hc as [Hc | Hc].
  - destruct (H1 c Hc) as [m Hm]. exists m. apply in_or_app. now left.
  - destruct (H2 c Hc) as [m Hm]. exists m. apply in_or_app. now right.
Qed.

Lemma failures_logged_error ev m : failures_logged (ev ++ [Diag Error m]).
Proof. intros c _. exists m. apply in_or_app. right. now left. Qed.

Lemma revert_reports_app ev1 ev2 :
  revert_reports (ev1 ++ ev2) = revert_reports ev1 + revert_reports ev2.
Proof. unfold revert_reports. now rewrite filter_app, length_app. Qed.

Lemma set_name_calls_app ev1 ev2 :
  set_name_calls (ev1 ++ ev2) = set_name_calls ev1 + set_name_calls ev2.
Proof. unfold set_name_calls. now rewrite filter_app, length_app. Qed.

Lemma revert_failed_app ev1 ev2 :
  revert_failed (ev1 ++ ev2) = revert_failed ev1 || revert_failed ev2.
Proof. apply existsb_app. Qed.

Lemma log_appends_app ev1 ev2 :
  log_appends (ev1 ++ ev2) = log_appends ev1 ++ log_appends ev2.
Proof. apply filter_app. Qed.

Lemma driver_calls_app ev1 ev2 :
  driver_calls (ev1 ++ ev2) = driver_calls ev1 ++ driver_calls ev2.
Proof. apply filter_app. Qed.

(** Symbolic execution of a run: the monad is unfolded and each
    consultation of the environment splits the goal. *)
Ltac unfold_run :=
  unfold set_mac, random_mac, try_except, bind, read, run, get, modify,
    randint256, emit, ret, raise, item1.

Ltac ask_env :=
  match goal with
  | |- context [ok ?e ?n] => destruct (ok e n) eqn:?
  | |- context [randomize_mac ?o] => destruct (randomize_mac o) eqn:?
  end.

Ltac find_in := cbn; repeat first [left; reflexivity | right].

Ltac logged :=
  first [ intros ? _; eexists; solve [find_in]
        | let H := fresh in
          intros ? H; cbn in H;
          repeat (destruct H as [H | H]; [discriminate H|]); contradiction H ].

Ltac flog :=
  first [ apply failures_logged_error
        | repeat apply failures_logged_app; first [assumption | logged] ].

Ltac in_app :=
  repeat rewrite in_app_iff; cbn; tauto.

Ltac exec := repeat (unfold_run; cbn; try ask_env).

Section Lemmas.
Variable env : Env.

(** What a call of [_spoof_wifi] can do. *)
Lemma spoof_wifi_spec ssid s :
  exists b s' ev,
    _spoof_wifi env ssid s = (Done b, s', ev)
    /\ self s' = self s /\ locked s' = locked s
    /\ log_appends ev = []
    /\ failures_logged ev
    /\ (b = false -> exists e, In (Diag Error (MsgSpoofWifiFailed e)) ev)
    /\ revert_reports ev = 0
    /\ revert_failed ev = false
    /\ set_name_calls ev = 1.
Proof.
  unfold _spoof_wifi. exec.
  all: do 3 eexists; split; [reflexivity|]; cbn.
  all: repeat split; try reflexivity.
  all: try solve [logged | intros [=] | intros _; eexists; find_in].
Qed.

Lemma spoof_bluetooth_spec name s :
  exists b s' ev,
    _spoof_bluetooth env name s = (Done b, s', ev)
    /\ self s' = self s /\ locked s' = locked s
    /\ log_appends ev = []
    /\ failures_logged ev
    /\ (b = false -> exists e, In (Diag Error (MsgSpoofBluetoothFailed e)) ev)
    /\ revert_reports ev = 0
    /\ revert_failed ev = false
    /\ set_name_calls ev = 1.
Proof.
  unfold _spoof_bluetooth. destruct name; exec.
  all: do 3 eexists; split; [reflexivity|]; cbn.
  all: repeat split; try reflexivity.
  all: try solve [logged | intros [=] | intros _; eexists; find_in].
Qed.

#[local] Arguments _spoof_wifi : simpl never.
#[local] Arguments _spoof_bluetooth : simpl never.

Lemma revert_none s :
  _current_spoof (self s) = None -> _revert_spoof env s = (Done tt, s, []).
Proof.
  intros H. unfold _revert_spoof, try_except, bind, get. cbn. now rewrite H.
Qed.

(** What a call of [_revert_spoof] on an active spoof can do. *)
Lemma revert_spec s a :
  _current_spoof (self s) = Some a ->
  exists s' ev,
    _revert_spoof env s = (Done tt, s', ev)
    /\ locked s' = locked s
    /\ log_appends ev = []
    /\ failures_logged ev
    /\ revert_reports ev = 1
    /\ ((revert_failed ev = false
         /\ self s' = set_current_spoof None (self s))
        \/ (revert_failed ev = true
            /\ self s' = self s
            /\ exists c, is_cycle c = true
                 /\ In (Run c false) ev
                 /\ In (Diag Error (MsgRevertFailed (Failed c))) ev)).
Proof.
  intros H. unfold _revert_spoof, try_except, bind, get. cbn. rewrite H.
  destruct (py_eq_str (s_type a) "wifi" && truthy (_original_ssid (self s))).
  - destruct (spoof_wifi_spec (JStr (str_or_empty (_original_ssid (self s)))) s)
      as (b & s1 & ev1 & E & Hs & Hl & Ha & Hf & _ & Hr & Hn & _).
    rewrite E. cbn. rewrite Hs.
    destruct (randomize_mac (options (self s)) && truthy (_original_mac (self s))).
    + exec.
      all: do 2 eexists; split; [reflexivity|]; cbn.
      all: rewrite ?Hs, ?Hl, ?log_appends_app, ?Ha, ?revert_reports_app, ?Hr,
             ?revert_failed_app, ?Hn.
      all: repeat split; try reflexivity.
      all: try flog.
      all: try (left; split; reflexivity).
      all: right; repeat split; try reflexivity.
      all: match goal with
           | |- context [MsgRevertFailed (Failed ?c)] => exists c
           end.
      all: repeat split; try reflexivity; in_app.
    + cbn. do 2 eexists; split; [reflexivity|]; cbn.
      rewrite ?Hs, ?Hl, ?log_appends_app, ?Ha, ?revert_reports_app, ?Hr,
        ?revert_failed_app, ?Hn.
      repeat split; try reflexivity.
      * flog.
      * left; split; reflexivity.
  - destruct (py_eq_str (s_type a) "bluetooth" && truthy (_original_bt_name (self s))).
    + destruct (spoof_bluetooth_spec (JStr (str_or_empty (_original_bt_name (self s)))) s)
        as (b & s1 & ev1 & E & Hs & Hl & Ha & Hf & _ & Hr & Hn & _).
      rewrite E. cbn. do 2 eexists; split; [reflexivity|]; cbn.
      rewrite ?Hs, ?Hl, ?log_appends_app, ?Ha, ?revert_reports_app, ?Hr,
        ?revert_failed_app, ?Hn.
      repeat split; try reflexivity.
      * flog.
      * left; split; reflexivity.
    + cbn. do 2 eexists; split; [reflexivity|]; cbn.
      repeat split; try reflexivity.
      * logged.
      * left; split; reflexivity.
Qed.

(** The same revert, told by the operations of the address restoration:
    when none of them fails the active spoof is cleared, whatever
    happened inside the name restoration; when one fails, the events are
    those of the name restoration, the address operations that
    succeeded, the one that failed and the message of a failed revert,
    and the plugin object is as it was. *)
Lemma revert_by_operation s a :
  _current_spoof (self s) = Some a ->
  let r := _revert_spoof env s in
  let name_restore :=
    _spoof_wifi env (JStr (str_or_empty (_original_ssid (self s)))) s in
  (address_restore_fails env s = false ->
   self (store r) = set_current_spoof None (self s)
   /\ revert_failed (events r) = false
   /\ In (Diag Info MsgReverted) (events r))
  /\ (address_restore_fails env s = true ->
      self (store r) = self s
      /\ revert_failed (events r) = true
      /\ exists pre c,
           events r =
             events name_restore
             ++ pre ++ [Run c false; Diag Error (MsgRevertFailed (Failed c))]
           /\ is_cycle c = true
           /\ Forall (fun e => exists c', e = Run c' true /\ is_cycle c' = true)
                     pre).
Proof.
  intros H. cbv zeta.
  unfold address_restore_fails, restores_address, address_restore_start.
  unfold _revert_spoof, try_except, bind, get. cbn. rewrite H.
  destruct (py_eq_str (s_type a) "wifi" && truthy (_original_ssid (self s))).
  - destruct (spoof_wifi_spec (JStr (str_or_empty (_original_ssid (self s)))) s)
      as (b & s1 & ev1 & E & Hs & _ & _ & _ & _ & _ & Hn & _).
    rewrite E. cbn. rewrite Hs.
    destruct (randomize_mac (options (self s)) && truthy (_original_mac (self s))).
    + exec.
      all: split; intros Hx; try discriminate Hx.
      all: rewrite ?revert_failed_app, ?Hn, ?Hs.
      all: repeat rewrite <- app_assoc; cbn [app].
      1: { repeat split. in_app. }
      all: split; [reflexivity|]; split; [now rewrite orb_true_r|].
      all: first
             [ solve [exists []; eexists; repeat split; constructor]
             | solve [eexists [_]; eexists; repeat split;
                      repeat constructor; eexists; split; reflexivity]
             | solve [eexists [_; _]; eexists; repeat split;
                      repeat constructor; eexists; split; reflexivity] ].
    + cbn. split; intros Hx; try discriminate Hx.
      rewrite !revert_failed_app, Hn, Hs. repeat split. in_app.
  - cbn.
    destruct (py_eq_str (s_type a) "bluetooth" && truthy (_original_bt_name (self s))).
    + destruct (spoof_bluetooth_spec (JStr (str_or_empty (_original_bt_name (self s)))) s)
        as (b & s1 & ev1 & E & Hs & _ & _ & _ & _ & _ & Hn & _).
      rewrite E. cbn. split; intros Hx; try discriminate Hx.
      rewrite !revert_failed_app, Hn, Hs. repeat split. in_app.
    + cbn. split; intros Hx; try discriminate Hx.
      repeat split. now left.
Qed.

End Lemmas.

(** ** Reverting *)

(** C4.  When no spoof is active, [_revert_spoof] returns at once:
    it runs no device operation, writes nothing to the log file or the
    diagnostic channel and leaves the store as it was.  Two calls in a
    row do the same, and more generally a call that follows a revert
    which left no spoof active changes nothing. *)
Theorem revert_when_inactive_is_noop (env : Env) (s : Store) :
  _current_spoof (self s) = None ->
  _revert_spoof env s = (Done tt, s, [])
  /\ (_revert_spoof env;; _revert_spoof env) s = (Done tt, s, [])
  /\ (forall s0,
        store (_revert_spoof env s0) = s ->
        _revert_spoof env (store (_revert_spoof env s0)) = (Done tt, s, [])).
Proof.
  intros H. pose proof (revert_none env s H) as E.
  repeat split.
  - exact E.
  - unfold bind. now rewrite E, E.
  - intros s0 ->. exact E.
Qed.

Lemma revert_when_inactive_is_noop_witness :
  _current_spoof (self Sample.idle) = None
  /\ _revert_spoof Sample.all_ok Sample.idle = (Done tt, Sample.idle, []).
Proof.
  split; [reflexivity|].
  apply (revert_when_inactive_is_noop Sample.all_ok Sample.idle). reflexivity.
Defined.

(** How many operations a call of [_spoof_wifi] runs depends on the
    number of the first one and on the randomisation option only. *)
Lemma spoof_wifi_tick env ssid s s' :
  tick s' = tick s ->
  randomize_mac (options (self s')) = randomize_mac (options (self s)) ->
  tick (store (_spoof_wifi env ssid s')) = tick (store (_spoof_wifi env ssid s)).
Proof.
  intros Ht Hr. unfold _spoof_wifi.
  repeat (unfold_run; cbn; rewrite ?Ht, ?Hr; try ask_env); reflexivity.
Qed.

(** Whether the address restoration of a revert fails depends on the
    active spoof, the recorded name and address, the options and the
    number of the first operation only. *)
Lemma address_restore_fails_ext env s s' :
  tick s' = tick s ->
  options (self s') = options (self s) ->
  _current_spoof (self s') = _current_spoof (self s) ->
  _original_ssid (self s') = _original_ssid (self s) ->
  _original_mac (self s') = _original_mac (self s) ->
  address_restore_fails env s' = address_restore_fails env s.
Proof.
  intros Ht Ho Hc Hn Hm.
  unfold address_restore_fails, restores_address, address_restore_start.
  rewrite Hc, Ho, Hn, Hm.
  rewrite (spoof_wifi_tick env _ s s' Ht) by now rewrite Ho.
  reflexivity.
Qed.

(** The shape of the events of a failed address restoration, read as
    membership. *)
Lemma failed_restore_in (ev0 pre ev : list Event) (c : Command) :
  ev = ev0 ++ pre ++ [Run c false; Diag Error (MsgRevertFailed (Failed c))] ->
  In (Run c false) ev /\ In (Diag Error (MsgRevertFailed (Failed c))) ev.
Proof. intros ->. split; in_app. Qed.

(** C1, as the code has it.  A revert of an active spoof always
    returns, and every device operation that failed in it is followed
    up on the diagnostic channel.  What it does to the active spoof is
    decided by the three operations of the hardware-address restoration
    (interface down, set address, interface up) that follow the
    restoration of a network name.  When none of them fails, which
    includes the reverts that do not restore an address, the active
    spoof is cleared and "Reverted" is logged, whatever failed inside
    the call that restores the name: that call handles its own
    failures.  When one of them fails, the revert ends in its own
    [except] clause: its events are those of the name restoration, the
    address operations that succeeded, the one that failed and the
    message of a failed revert for that operation, and the plugin
    object, with the active spoof, is as it was.  So the message of a
    failed revert is logged exactly when the address restoration
    fails. *)
Theorem revert_clears_unless_address_restore_fails
    (env : Env) (s : Store) (a : Spoof) :
  _current_spoof (self s) = Some a ->
  let r := _revert_spoof env s in
  let name_restore :=
    _spoof_wifi env (JStr (str_or_empty (_original_ssid (self s)))) s in
  outcome r = Done tt
  /\ failures_logged (events r)
  /\ (address_restore_fails env s = false ->
      _current_spoof (self (store r)) = None
      /\ In (Diag Info MsgReverted) (events r))
  /\ (address_restore_fails env s = true ->
      _current_spoof (self (store r)) = Some a
      /\ self (store r) = self s
      /\ exists pre c,
           events r =
             events name_restore
             ++ pre ++ [Run c false; Diag Error (MsgRevertFailed (Failed c))]
           /\ is_cycle c = true
           /\ Forall (fun e => exists c', e = Run c' true /\ is_cycle c' = true)
                     pre)
  /\ revert_failed (events r) = address_restore_fails env s.
Proof.
  intros H r name_restore.
  destruct (revert_spec env s a H) as (s' & ev & E & _ & _ & Hf & _).
  destruct (revert_by_operation env s a H) as (Hok & Hko).
  fold r in Hok, Hko. fold name_restore in Hko.
  assert (outcome r = Done tt /\ failures_logged (events r)) as (Ho & Hl)
    by (subst r; rewrite E; split; [reflexivity | exact Hf]).
  split; [exact Ho|]. split; [exact Hl|].
  destruct (address_restore_fails env s).
  - destruct (Hko eq_refl) as (Hs & Hn & Hev).
    repeat split; try discriminate; auto.
    now rewrite Hs.
  - destruct (Hok eq_refl) as (Hs & Hn & Hev).
    repeat split; try discriminate; auto.
    now rewrite Hs.
Qed.

(** The plugin that serves a request for the network name "unitA" and
    then reverts; in the revert the configuration file cannot be read
    (operation 7) and the three address operations succeed: the failure
    is logged by the name restoration and no spoof is left active. *)
Lemma revert_clears_unless_address_restore_fails_witness :
  let env := Sample.fails_at 7 in
  let s := Sample.spoofing_unitA in
  let r := _revert_spoof env s in
  _current_spoof (self s) = Some Sample.unitA
  /\ address_restore_fails env s = false
  /\ In (Run ReadHostapdConf false) (events r)
  /\ In (Diag Error (MsgSpoofWifiFailed (Failed ReadHostapdConf))) (events r)
  /\ _current_spoof (self (store r)) = None.
Proof.
  pose proof (revert_clears_unless_address_restore_fails
                (Sample.fails_at 7) Sample.spoofing_unitA
                Sample.unitA eq_refl) as (_ & _ & H & _).
  cbv zeta. split; [reflexivity|]. split; [reflexivity|].
  split; [vm_compute; tauto|]. split; [vm_compute; tauto|].
  apply H. reflexivity.
Defined.

(** C1 as stated fails.  A plugin without a log file serves a request
    for the network name "unitA" (operations 0 to 6) and then reverts:
    the name is restored (operations 7 to 13), then taking the interface
    down for the address restoration fails (operation 14).  The revert
    logs the failure and returns with "unitA" still recorded as
    active. *)
Lemma revert_leaves_active_when_address_restore_fails :
  let env := Sample.fails_at 14 in
  let s := store (on_webhook_post env (Some Sample.spoof_wifi_unitA)
                    Sample.idle_no_log) in
  let r := _revert_spoof env s in
  _current_spoof (self s) = Some Sample.unitA
  /\ locked s = false
  /\ tick s = 7
  /\ outcome r = Done tt
  /\ events r =
       [Run ReadHostapdConf true; Run (WriteTmpConf (JStr "home-ap")) true;
        Run MoveConf true; Run (IfDown "wlan0") true;
        Run (IfHwEther "wlan0" "00:00:00:00:00:00") true;
        Run (IfUp "wlan0") true; Run RestartHostapd true;
        Diag Info (MsgSpoofedWifi (JStr "home-ap"));
        Run (IfDown "wlan0") false;
        Diag Error (MsgRevertFailed (Failed (IfDown "wlan0")))]
  /\ _current_spoof (self (store r)) = Some Sample.unitA
  /\ _current_spoof (self (store r)) <> None.
Proof.
  vm_compute. repeat split. discriminate.
Qed.

(** ** Applying *)

(** C7, as the code has it.  With address randomisation on, when the
    configuration file was read, rewritten and moved into place and one
    of the three address operations then fails, [apply] of a network
    name returns failure for the whole call: the events are the three
    operations on the configuration file, the address operations that
    succeeded, the one that failed and the message "Failed to spoof
    Wi-Fi SSID".  Nothing is run after the failure: the new name stays
    in the configuration file and the access point is not restarted. *)
Theorem address_cycle_failure_fails_apply
    (env : Env) (new_spoof : Spoof) (s : Store) :
  py_eq_str (s_type new_spoof) "wifi" = true ->
  randomize_mac (options (self s)) = true ->
  ok env (tick s) = true ->
  ok env (1 + tick s) = true ->
  ok env (2 + tick s) = true ->
  ok env (3 + tick s) = false \/ ok env (4 + tick s) = false
    \/ ok env (5 + tick s) = false ->
  let r := apply env new_spoof s in
  outcome r = Done false
  /\ self (store r) = self s
  /\ exists pre c,
       events r =
         [Run ReadHostapdConf true; Run (WriteTmpConf (s_name new_spoof)) true;
          Run MoveConf true]
         ++ pre ++ [Run c false; Diag Error (MsgSpoofWifiFailed (Failed c))]
       /\ is_cycle c = true
       /\ Forall (fun e => exists c', e = Run c' true /\ is_cycle c' = true) pre.
Proof.
  intros Hw Hr H0 H1 H2 H3. unfold apply. rewrite Hw.
  unfold _spoof_wifi. cbn in H1, H2, H3.
  repeat (unfold_run; cbn; rewrite ?H0, ?H1, ?H2, ?Hr).
  destruct (ok env (S (S (S (tick s))))) eqn:E3; cbn;
    [destruct (ok env (S (S (S (S (tick s)))))) eqn:E4; cbn;
       [destruct (ok env (S (S (S (S (S (tick s))))))) eqn:E5; cbn|]|].
  1: exfalso; destruct H3 as [H3 | [H3 | H3]]; discriminate H3.
  all: repeat split.
  - eexists [_; _]. eexists. repeat split.
    repeat constructor; eexists; split; reflexivity.
  - eexists [_]. eexists. repeat split.
    repeat constructor. eexists. split; reflexivity.
  - exists []. eexists. repeat split. constructor.
Qed.

Lemma address_cycle_failure_fails_apply_witness :
  let r := apply (Sample.fails_at 4) Sample.unitA Sample.idle in
  outcome r = Done false /\ self (store r) = self Sample.idle.
Proof.
  pose proof (address_cycle_failure_fails_apply
                (Sample.fails_at 4) Sample.unitA Sample.idle
                eq_refl eq_refl eq_refl eq_refl eq_refl
                (or_intror (or_introl eq_refl))) as (H1 & H2 & _).
  split; assumption.
Defined.

(** C7 as stated fails: the name change succeeds (the configuration
    file is moved into place), taking the interface down for the address
    change fails, and [apply] returns failure for the whole call, with
    the single message of a failed Wi-Fi spoof. *)
Lemma apply_fails_when_only_address_cycle_fails :
  let r := apply (Sample.fails_at 3) Sample.unitA Sample.idle in
  events r =
    [Run ReadHostapdConf true; Run (WriteTmpConf (JStr "unitA")) true;
     Run MoveConf true; Run (IfDown "wlan0") false;
     Diag Error (MsgSpoofWifiFailed (Failed (IfDown "wlan0")))]
  /\ outcome r = Done false
  /\ outcome r <> Done true.
Proof.
  vm_compute. repeat split. discriminate.
Qed.

(** ** Capturing the original identity *)

Section Capture.
Variable env : Env.

Lemma scan_ssid_pure ls s :
  exists o, scan_ssid ls s = (o, s, []) /\ o <> Blocked.
Proof.
  induction ls as [|line rest IH]; cbn.
  - eexists; split; [reflexivity | discriminate].
  - destruct (prefix "ssid=" line); [|exact IH].
    unfold bind, item1.
    destruct (nth_error (PyStr.split "=" (PyStr.strip line)) 1); cbn;
      eexists; split; try reflexivity; discriminate.
Qed.

Lemma scan_mac_pure ls s :
  exists o, scan_mac ls s = (o, s, []) /\ o <> Blocked.
Proof.
  induction ls as [|line rest IH]; cbn.
  - eexists; split; [reflexivity | discriminate].
  - destruct (PyStr.contains "ether" line); [|exact IH].
    unfold bind, item1.
    destruct (nth_error (PyStr.split "ether" (PyStr.strip line)) 1); cbn.
    + destruct (PyStr.first_word (PyStr.strip s0)); cbn;
        eexists; split; try reflexivity; discriminate.
    + eexists; split; try reflexivity; discriminate.
Qed.

(** The network name read at load time: the default when the file
    cannot be read. *)
Lemma get_current_ssid_spec s :
  exists v ev,
    _get_current_ssid env s = (Done v, ticked s, ev)
    /\ (ok env (tick s) = false -> v = "pwnagotchi").
Proof.
  unfold _get_current_ssid, try_except, bind, read.
  destruct (ok env (tick s)); cbn.
  - destruct (scan_ssid_pure (PyStr.file_lines (out env (tick s))) (ticked s))
      as ([[v|] | e |] & E & Hb); rewrite E; cbn;
      try (do 2 eexists; split; [reflexivity | discriminate]).
    now contradiction Hb.
  - do 2 eexists; split; reflexivity.
Qed.

Lemma get_current_bt_name_spec s :
  exists v ev,
    _get_current_bt_name env s = (Done v, ticked s, ev)
    /\ (ok env (tick s) = false -> v = "pwnagotchi").
Proof.
  unfold _get_current_bt_name, try_except, bind, read, get, item1.
  destruct (ok env (tick s)); cbn.
  - match goal with
    | |- context [nth_error ?l 1] => destruct (nth_error l 1)
    end; cbn; do 2 eexists; split; try reflexivity; discriminate.
  - do 2 eexists; split; reflexivity.
Qed.

Lemma get_current_mac_spec s :
  exists v ev,
    _get_current_mac env s = (Done v, ticked s, ev)
    /\ (ok env (tick s) = false -> v = None).
Proof.
  unfold _get_current_mac, try_except, bind, read, get.
  destruct (ok env (tick s)); cbn.
  - destruct (scan_mac_pure (PyStr.lines (out env (tick s))) (ticked s))
      as ([v | e |] & E & Hb); rewrite E; cbn;
      try (do 2 eexists; split; [reflexivity | discriminate]).
    now contradiction Hb.
  - do 2 eexists; split; reflexivity.
Qed.

(** The three original values after [on_loaded]. *)
Lemma on_loaded_spec s :
  exists ssid bt mac ev,
    on_loaded env s =
      (Done tt,
       with_self (fun p => set_original_mac mac
                             (set_original_bt_name (Some bt)
                                (set_original_ssid (Some ssid) p)))
                 (ticked (ticked (ticked s))),
       ev)
    /\ (ok env (tick s) = false -> ssid = "pwnagotchi")
    /\ (ok env (1 + tick s) = false -> bt = "pwnagotchi")
    /\ (ok env (2 + tick s) = false -> mac = None).
Proof.
  unfold on_loaded, try_except, bind.
  destruct (get_current_ssid_spec s) as (ssid & ev1 & E1 & H1). rewrite E1.
  cbn.
  destruct (get_current_bt_name_spec
              (with_self (set_original_ssid (Some ssid)) (ticked s)))
    as (bt & ev2 & E2 & H2).
  rewrite E2. cbn.
  destruct (get_current_mac_spec
              (with_self (set_original_bt_name (Some bt))
                 (ticked (with_self (set_original_ssid (Some ssid)) (ticked s)))))
    as (mac & ev3 & E3 & H3).
  rewrite E3. cbn.
  exists ssid, bt, mac. eexists. split; [reflexivity|].
  repeat split; assumption.
Qed.

End Capture.

Section RevertShapes.
Variable env : Env.

#[local] Arguments _spoof_wifi : simpl never.
#[local] Arguments _spoof_bluetooth : simpl never.

(** A revert of a network-name spoof starts with the call that puts the
    recorded original name back. *)
Lemma revert_wifi_prefix s a ssid :
  _current_spoof (self s) = Some a ->
  py_eq_str (s_type a) "wifi" = true ->
  _original_ssid (self s) = Some ssid ->
  truthy (Some ssid) = true ->
  exists rest,
    events (_revert_spoof env s) = events (_spoof_wifi env (JStr ssid) s) ++ rest.
Proof.
  intros H Ht Ho Hy. unfold _revert_spoof, try_except, bind, get. cbn.
  rewrite H, Ht, Ho, Hy. cbn.
  destruct (spoof_wifi_spec env (JStr ssid) s) as (b & s1 & ev1 & E & _).
  rewrite E. cbn.
  destruct (randomize_mac (options (self s1)) && truthy (_original_mac (self s1))).
  - exec; unfold events; cbn [snd]; rewrite <- ?app_assoc;
      eexists; reflexivity.
  - cbn. unfold events; cbn [snd]. rewrite <- ?app_assoc.
    eexists; reflexivity.
Qed.

(** Without a recorded hardware address the revert of a network-name
    spoof is the name restoration and nothing else. *)
Lemma revert_wifi_without_mac s a ssid :
  _current_spoof (self s) = Some a ->
  py_eq_str (s_type a) "wifi" = true ->
  _original_ssid (self s) = Some ssid ->
  truthy (Some ssid) = true ->
  _original_mac (self s) = None ->
  _revert_spoof env s =
    (Done tt,
     with_self (set_current_spoof None) (store (_spoof_wifi env (JStr ssid) s)),
     events (_spoof_wifi env (JStr ssid) s) ++ [Diag Info MsgReverted]).
Proof.
  intros H Ht Ho Hy Hm. unfold _revert_spoof, try_except, bind, get. cbn.
  rewrite H, Ht, Ho, Hy. cbn.
  destruct (spoof_wifi_spec env (JStr ssid) s) as (b & s1 & ev1 & E & Hs & _).
  rewrite E. cbn. rewrite Hs, Hm, andb_false_r. cbn.
  now rewrite app_nil_r.
Qed.

(** A revert of a radio-name spoof is the call that puts the recorded
    original name back. *)
Lemma revert_bluetooth_shape s a name :
  _current_spoof (self s) = Some a ->
  py_eq_str (s_type a) "bluetooth" = true ->
  _original_bt_name (self s) = Some name ->
  truthy (Some name) = true ->
  _revert_spoof env s =
    (Done tt,
     with_self (set_current_spoof None)
       (store (_spoof_bluetooth env (JStr name) s)),
     events (_spoof_bluetooth env (JStr name) s) ++ [Diag Info MsgReverted]).
Proof.
  intros H Ht Ho Hy. unfold _revert_spoof, try_except, bind, get. cbn.
  rewrite H, Ho, Hy, Ht.
  assert (py_eq_str (s_type a) "wifi" = false) as ->.
  { destruct (s_type a); try reflexivity. cbn in *.
    apply String.eqb_eq in Ht. now subst. }
  cbn.
  destruct (spoof_bluetooth_spec env (JStr name) s) as (b & s1 & ev1 & E & _).
  rewrite E. cbn. now rewrite app_nil_r.
Qed.

(** Without a recorded hardware address no revert ends in its own
    [except] clause. *)
Lemma revert_without_mac s a :
  _current_spoof (self s) = Some a ->
  _original_mac (self s) = None ->
  revert_failed (events (_revert_spoof env s)) = false
  /\ _current_spoof (self (store (_revert_spoof env s))) = None.
Proof.
  intros H Hm. unfold _revert_spoof, try_except, bind, get. cbn. rewrite H.
  destruct (py_eq_str (s_type a) "wifi" && truthy (_original_ssid (self s))).
  - destruct (spoof_wifi_spec env (JStr (str_or_empty (_original_ssid (self s)))) s)
      as (b & s1 & ev1 & E & Hs & _ & _ & _ & _ & _ & Hn & _).
    rewrite E. cbn. rewrite Hs, Hm, andb_false_r. cbn.
    rewrite !revert_failed_app, Hn. split; reflexivity.
  - destruct (py_eq_str (s_type a) "bluetooth" && truthy (_original_bt_name (self s))).
    + destruct (spoof_bluetooth_spec env (JStr (str_or_empty (_original_bt_name (self s)))) s)
        as (b & s1 & ev1 & E & Hs & _ & _ & _ & _ & _ & Hn & _).
      rewrite E. cbn. rewrite !revert_failed_app, Hn. split; reflexivity.
    + cbn. split; reflexivity.
Qed.

End RevertShapes.

(** C3, as the code has it.  [on_loaded] always returns.  When the
    hardware address cannot be read the field stays [None], and every
    later revert leaves the address alone: it does not end in its own
    [except] clause, clears the active spoof, and for a network-name
    spoof is the name restoration and nothing else.  When the network
    name or the radio name cannot be read the field is set to the
    default "pwnagotchi", and a later revert of a spoof of that kind
    restores that default. *)
Theorem capture_failure_defaults (env : Env) (s : Store) :
  let r := on_loaded env s in
  outcome r = Done tt
  /\ (ok env (tick s) = false ->
      _original_ssid (self (store r)) = Some "pwnagotchi")
  /\ (ok env (1 + tick s) = false ->
      _original_bt_name (self (store r)) = Some "pwnagotchi")
  /\ (ok env (2 + tick s) = false ->
      _original_mac (self (store r)) = None)
  /\ (forall env' s' a,
        _current_spoof (self s') = Some a ->
        (_original_mac (self s') = None ->
         revert_failed (events (_revert_spoof env' s')) = false
         /\ _current_spoof (self (store (_revert_spoof env' s'))) = None
         /\ (forall ssid,
               py_eq_str (s_type a) "wifi" = true ->
               _original_ssid (self s') = Some ssid ->
               truthy (Some ssid) = true ->
               events (_revert_spoof env' s') =
                 events (_spoof_wifi env' (JStr ssid) s')
                 ++ [Diag Info MsgReverted]))
        /\ (_original_ssid (self s') = Some "pwnagotchi" ->
            py_eq_str (s_type a) "wifi" = true ->
            exists rest,
              events (_revert_spoof env' s') =
                events (_spoof_wifi env' (JStr "pwnagotchi") s') ++ rest)
        /\ (_original_bt_name (self s') = Some "pwnagotchi" ->
            py_eq_str (s_type a) "bluetooth" = true ->
            events (_revert_spoof env' s') =
              events (_spoof_bluetooth env' (JStr "pwnagotchi") s')
              ++ [Diag Info MsgReverted])).
Proof.
  intros r. subst r.
  destruct (on_loaded_spec env s) as (ssid & bt & mac & ev & E & H1 & H2 & H3).
  rewrite E. unfold outcome, store, events. cbn [fst snd].
  split; [reflexivity|].
  split; [intros H; cbn; now rewrite (H1 H)|].
  split; [intros H; cbn; now rewrite (H2 H)|].
  split; [intros H; cbn; now rewrite (H3 H)|].
  intros env' s' a Ha. repeat split.
  - now apply (revert_without_mac env' s' a).
  - now apply (revert_without_mac env' s' a).
  - intros ssid0 Ht Ho Hy.
    now rewrite (revert_wifi_without_mac env' s' a ssid0).
  - intros Ho Ht. now apply (revert_wifi_prefix env' s' a).
  - intros Ho Ht. now rewrite (revert_bluetooth_shape env' s' a "pwnagotchi").
Qed.

(** A load in which the address cannot be read (operation 2), then a
    revert of a network-name spoof: the address field is [None] and the
    revert runs the name restoration only. *)
Lemma capture_failure_defaults_witness :
  let env := Sample.fails_at 2 in
  let s := mkStore (init Sample.defaults) false 0 0 in
  let r := on_loaded env s in
  let later := with_self (set_current_spoof (Some Sample.unitA)) (store r) in
  ok env (2 + tick s) = false
  /\ _original_mac (self (store r)) = None
  /\ _current_spoof (self later) = Some Sample.unitA
  /\ _current_spoof (self (store (_revert_spoof env later))) = None.
Proof.
  cbv zeta.
  pose proof (capture_failure_defaults (Sample.fails_at 2)
                (mkStore (init Sample.defaults) false 0 0))
    as (_ & _ & _ & Hmac & Hlater).
  split; [reflexivity|].
  split; [apply Hmac; reflexivity|].
  split; [reflexivity|].
  destruct (Hlater (Sample.fails_at 2)
              (with_self (set_current_spoof (Some Sample.unitA))
                 (store (on_loaded (Sample.fails_at 2)
                           (mkStore (init Sample.defaults) false 0 0))))
              Sample.unitA eq_refl) as (Hm & _).
  apply Hm. reflexivity.
Defined.

(** C3 as stated fails: the configuration file cannot be read at load
    time (operation 0); the network-name field is not left unset but
    set to "pwnagotchi", and a later revert of a network-name spoof
    writes that name to the configuration file. *)
Lemma failed_name_capture_stores_default :
  let env := Sample.fails_at 0 in
  let r := on_loaded env (mkStore (init Sample.defaults) false 0 0) in
  let later := with_self (set_current_spoof (Some Sample.unitA)) (store r) in
  In (Run ReadHostapdConf false) (events r)
  /\ _original_ssid (self (store r)) = Some "pwnagotchi"
  /\ _original_ssid (self (store r)) <> None
  /\ In (Run (WriteTmpConf (JStr "pwnagotchi")) true)
        (events (_revert_spoof env later)).
Proof.
  vm_compute. repeat split; try tauto. discriminate.
Qed.

(** ** The display and the log under the lock *)

Section Locked.
Variable env : Env.

(** [_update_ui] takes the lock itself: called while the lock is held
    it never returns. *)
Lemma update_ui_locked s :
  locked s = true -> _update_ui s = (Blocked, s, []).
Proof. intros H. unfold _update_ui, with_lock. now rewrite H. Qed.

Lemma update_ui_spec s :
  exists o s' ev,
    _update_ui s = (o, s', ev)
    /\ self s' = self s
    /\ (ev = [] \/ exists d, ev = [Ui d]).
Proof.
  unfold _update_ui, with_lock. destruct (locked s).
  - do 3 eexists. repeat split. now left.
  - unfold bind, get, emit, ret, slice20, title_of, raise. cbn.
    destruct (_current_spoof (self s)) as [[t n]|]; cbn.
    + destruct n; cbn; try (do 3 eexists; repeat split; now left).
      all: destruct t; cbn; do 3 eexists; repeat split;
        first [now left | right; eexists; reflexivity].
    + do 3 eexists; repeat split. right; eexists; reflexivity.
Qed.

(** [_log_spoof] takes the lock before it writes: called while the lock
    is held it writes nothing, and returns only when no log file is
    configured. *)
Lemma log_spoof_locked s :
  locked s = true ->
  exists o, _log_spoof env s = (o, s, []) /\ (o = Done tt \/ o = Blocked).
Proof.
  intros H. unfold _log_spoof, bind, get, try_except, with_lock. cbn.
  destruct (String.eqb (log_file (options (self s))) ""); cbn.
  - eexists; split; [reflexivity | now left].
  - rewrite H. eexists; split; [reflexivity | now right].
Qed.

(** What [apply] can do. *)
Lemma apply_spec new_spoof s :
  exists b s' ev,
    apply env new_spoof s = (Done b, s', ev)
    /\ self s' = self s /\ locked s' = locked s
    /\ log_appends ev = []
    /\ failures_logged ev
    /\ (b = false ->
        exists e, In (Diag Error (MsgSpoofWifiFailed e)) ev
                  \/ In (Diag Error (MsgSpoofBluetoothFailed e)) ev)
    /\ revert_reports ev = 0
    /\ revert_failed ev = false
    /\ set_name_calls ev = 1.
Proof.
  unfold apply. destruct (py_eq_str (s_type new_spoof) "wifi").
  - destruct (spoof_wifi_spec env (s_name new_spoof) s)
      as (b & s' & ev & E & H1 & H2 & H3 & H4 & H5 & H6 & H7 & H8).
    exists b, s', ev. repeat split; auto.
    intros Hb. destruct (H5 Hb) as [e He]. exists e. now left.
  - destruct (spoof_bluetooth_spec env (s_name new_spoof) s)
      as (b & s' & ev & E & H1 & H2 & H3 & H4 & H5 & H6 & H7 & H8).
    exists b, s', ev. repeat split; auto.
    intros Hb. destruct (H5 Hb) as [e He]. exists e. now right.
Qed.

#[local] Arguments apply : simpl never.
#[local] Arguments _log_spoof : simpl never.

(** [apply] followed by the bookkeeping of its caller, under the lock:
    the spoof is recorded exactly when [apply] succeeded, and nothing is
    added to the events of [apply]. *)
Lemma apply_and_record_locked new_spoof s :
  locked s = true ->
  exists o,
    apply_and_record env new_spoof s =
      (o,
       match outcome (apply env new_spoof s) with
       | Done true =>
           with_self (set_current_spoof (Some new_spoof))
                     (store (apply env new_spoof s))
       | _ => store (apply env new_spoof s)
       end,
       events (apply env new_spoof s))
    /\ (o = Done tt \/ o = Blocked).
Proof.
  intros H. unfold apply_and_record, bind.
  destruct (apply_spec new_spoof s) as (b & s' & ev & E & _ & Hl & _).
  rewrite E. unfold outcome, store, events. cbn [fst snd].
  destruct b; cbn.
  - destruct (log_spoof_locked (with_self (set_current_spoof (Some new_spoof)) s'))
      as (o & E' & Ho).
    { cbn. now rewrite Hl. }
    rewrite E'. rewrite app_nil_r. now exists o.
  - rewrite app_nil_r. exists (Done tt). split; [reflexivity | now left].
Qed.

(** A revert always returns and keeps the lock as it is. *)
Lemma revert_total s :
  exists s' ev,
    _revert_spoof env s = (Done tt, s', ev)
    /\ locked s' = locked s
    /\ log_appends ev = []
    /\ failures_logged ev.
Proof.
  destruct (_current_spoof (self s)) as [a|] eqn:H.
  - destruct (revert_spec env s a H) as (s' & ev & E & Hl & Ha & Hf & _).
    now exists s', ev.
  - exists s, []. rewrite (revert_none env s H). repeat split.
    intros c [].
Qed.

End Locked.

(** ** Polling *)

Lemma Qltb_true a b : (a < b)%Q -> Qltb a b = true.
Proof.
  intros H. unfold Qltb. destruct (Qle_bool b a) eqn:E; [|reflexivity].
  apply Qle_bool_iff in E. exfalso. now apply (Qlt_not_le a b).
Qed.

Lemma Qltb_false a b : (b <= a)%Q -> Qltb a b = false.
Proof.
  intros H. unfold Qltb. apply Qle_bool_iff in H. now rewrite H.
Qed.

(** C9.  A poll that arrives before [check_interval] has passed since
    the last accepted poll returns at once: the store, and with it the
    active spoof and the time of the last accepted poll, is unchanged,
    no device operation is run and nothing is logged. *)
Theorem poll_before_interval_is_noop
    (env : Env) (now : Q) (detector : option Detector) (s : Store) :
  (now - _last_spoof (self s) < check_interval (options (self s)))%Q ->
  on_wifi_update env now detector s = (Done tt, s, []).
Proof.
  intros H. unfold on_wifi_update, bind, get. cbn.
  now rewrite (Qltb_true _ _ H).
Qed.

Lemma poll_before_interval_is_noop_witness :
  (59 - _last_spoof (self Sample.idle)
   < check_interval (options (self Sample.idle)))%Q
  /\ on_wifi_update Sample.all_ok 59%Q (Some Sample.sees_unitA) Sample.idle
     = (Done tt, Sample.idle, []).
Proof.
  assert (59 - _last_spoof (self Sample.idle)
          < check_interval (options (self Sample.idle)))%Q as H
    by reflexivity.
  split; [exact H|].
  exact (poll_before_interval_is_noop Sample.all_ok 59%Q
           (Some Sample.sees_unitA) Sample.idle H).
Defined.

Section Poll.
Variable env : Env.

#[local] Arguments _revert_spoof : simpl never.
#[local] Arguments apply_and_record : simpl never.
#[local] Arguments _update_ui : simpl never.
#[local] Arguments candidates_of : simpl never.
#[local] Arguments Qltb : simpl never.
#[local] Arguments Qminus : simpl never.
#[local] Arguments nth : simpl never.
#[local] Arguments length : simpl never.

(** A poll that passed the rate limit while the lock is held waits for
    the lock: only the time of the poll is recorded. *)
Lemma poll_locked now d s :
  (check_interval (options (self s)) <= now - _last_spoof (self s))%Q ->
  locked s = true ->
  on_wifi_update env now (Some d) s =
    (Blocked, with_self (set_last_spoof now) s, []).
Proof.
  intros Hr Hl. unfold on_wifi_update, bind, get, modify, with_lock. cbn.
  rewrite (Qltb_false _ _ Hr). cbn. now rewrite Hl.
Qed.

(** A poll that passed the rate limit, took the lock and found
    candidates: it reverts and applies when the chosen candidate is not
    the active spoof, and then waits for the lock in [_update_ui]. *)
Lemma poll_shape now d s :
  (check_interval (options (self s)) <= now - _last_spoof (self s))%Q ->
  locked s = false ->
  candidates_of (options (self s)) d <> [] ->
  let c := chosen env (candidates_of (options (self s)) d) s in
  let rv := _revert_spoof env (poll_store now s) in
  let ra := apply_and_record env (spoof_of c) (store rv) in
  on_wifi_update env now (Some d) s =
    if spoof_is (_current_spoof (self s)) (fst c) (snd c)
    then (Blocked, poll_store now s, [])
    else (Blocked, store ra, events rv ++ events ra).
Proof.
  intros Hr Hl Hc c rv ra.
  unfold on_wifi_update, bind, get, modify, with_lock. cbn.
  rewrite (Qltb_false _ _ Hr). cbn. rewrite Hl.
  destruct (candidates_of (options (self s)) d) as [|c0 cs] eqn:Ec;
    [contradiction|]. cbn [is_nil].
  unfold choice. cbn.
  fold (chosen env (c0 :: cs) s). fold c.
  destruct (spoof_is (_current_spoof (self s)) (fst c) (snd c)) eqn:Es; cbn.
  - rewrite update_ui_locked by reflexivity. reflexivity.
  - fold (poll_entry now s). fold (poll_store now s). fold rv.
    destruct (revert_total env (poll_store now s)) as (s1 & ev1 & E1 & Hl1 & _).
    subst ra. subst rv. rewrite E1. unfold store, events. cbn [fst snd].
    destruct (apply_and_record_locked env (spoof_of c) s1) as (o & E2 & Ho).
    { now rewrite Hl1. }
    fold (spoof_of c). rewrite E2. cbn [fst snd].
    assert (locked (match outcome (apply env (spoof_of c) s1) with
                    | Done true =>
                        with_self (set_current_spoof (Some (spoof_of c)))
                                  (store (apply env (spoof_of c) s1))
                    | _ => store (apply env (spoof_of c) s1)
                    end) = true) as Hl2.
    { destruct (apply_spec env (spoof_of c) s1) as (b & s2 & ev2 & E & _ & L & _).
      rewrite E. unfold outcome, store. cbn [fst snd].
      destruct b; cbn; now rewrite L, Hl1. }
    destruct Ho as [-> | ->]; cbn.
    + rewrite update_ui_locked by exact Hl2. now rewrite app_nil_r.
    + reflexivity.
Qed.

End Poll.

(** The active spoof after any revert, read off its events. *)
Lemma revert_result (env : Env) (s : Store) :
  let r := _revert_spoof env s in
  outcome r = Done tt
  /\ locked (store r) = locked s
  /\ log_appends (events r) = []
  /\ (revert_failed (events r) = false ->
      _current_spoof (self (store r)) = None)
  /\ (revert_failed (events r) = true -> self (store r) = self s)
  /\ options (self (store r)) = options (self s)
  /\ (_current_spoof (self s) = None -> r = (Done tt, s, []))
  /\ (_current_spoof (self s) <> None -> revert_reports (events r) = 1).
Proof.
  intros r. subst r.
  destruct (_current_spoof (self s)) as [a|] eqn:H.
  - destruct (revert_spec env s a H)
      as (s' & ev & E & Hl & Ha & _ & Hn & [[Hf Hs] | (Hf & Hs & _)]).
    all: rewrite E; unfold outcome, store, events; cbn [fst snd].
    all: rewrite Hf, Hs; repeat split; auto; try discriminate.
  - rewrite (revert_none env s H). unfold outcome, store, events. cbn.
    repeat split; auto; try discriminate. now intros [].
Qed.

(** The active spoof after any revert, told by the operations of the
    address restoration. *)
Lemma revert_outcome_by_operation (env : Env) (s : Store) :
  let r := _revert_spoof env s in
  revert_failed (events r) = address_restore_fails env s
  /\ (address_restore_fails env s = false ->
      _current_spoof (self (store r)) = None)
  /\ (address_restore_fails env s = true ->
      self (store r) = self s
      /\ _current_spoof (self s) <> None
      /\ exists c, is_cycle c = true
           /\ In (Run c false) (events r)
           /\ In (Diag Error (MsgRevertFailed (Failed c))) (events r)).
Proof.
  intros r. subst r.
  destruct (_current_spoof (self s)) as [a|] eqn:H.
  - destruct (revert_by_operation env s a H) as (Hok & Hko).
    destruct (address_restore_fails env s).
    + destruct (Hko eq_refl) as (Hs & Hn & pre & c & Hev & Hc & _).
      destruct (failed_restore_in _ _ _ _ Hev) as (Hrun & Hmsg).
      repeat split; try discriminate; auto.
      now exists c.
    + destruct (Hok eq_refl) as (Hs & Hn & _).
      repeat split; try discriminate; auto.
      now rewrite Hs.
  - rewrite (revert_none env s H).
    assert (address_restore_fails env s = false) as ->
      by (unfold address_restore_fails, restores_address; now rewrite H).
    repeat split; try discriminate; auto.
Qed.

(** C2, as the code has it.  In a poll that passed the rate limit,
    took the lock and chose a candidate other than the active spoof,
    when the apply step fails: the active spoof is what the revert
    before the apply left.  That is [None] when none of the operations
    of the hardware-address restoration of that revert failed, and in
    particular when no spoof was active; when one of them failed, the
    failed revert is logged and the active spoof is still the one that
    was active before the poll.  Nothing is added to the log file, as
    in every poll, and the failure of the apply is on the diagnostic
    channel. *)
Theorem failed_apply_records_nothing
    (env : Env) (now : Q) (d : Detector) (s : Store) :
  (check_interval (options (self s)) <= now - _last_spoof (self s))%Q ->
  locked s = false ->
  candidates_of (options (self s)) d <> [] ->
  let c := chosen env (candidates_of (options (self s)) d) s in
  spoof_is (_current_spoof (self s)) (fst c) (snd c) = false ->
  let after_revert := store (_revert_spoof env (poll_store now s)) in
  outcome (apply env (spoof_of c) after_revert) = Done false ->
  let r := on_wifi_update env now (Some d) s in
  _current_spoof (self (store r)) = _current_spoof (self after_revert)
  /\ (address_restore_fails env s = false ->
      _current_spoof (self (store r)) = None)
  /\ (address_restore_fails env s = true ->
      _current_spoof (self (store r)) = _current_spoof (self s)
      /\ _current_spoof (self (store r)) <> None
      /\ exists c', is_cycle c' = true
           /\ In (Run c' false) (events r)
           /\ In (Diag Error (MsgRevertFailed (Failed c'))) (events r))
  /\ revert_failed (events r) = address_restore_fails env s
  /\ log_appends (events r) = []
  /\ exists e, In (Diag Error (MsgSpoofWifiFailed e)) (events r)
               \/ In (Diag Error (MsgSpoofBluetoothFailed e)) (events r).
Proof.
  intros Hr Hl Hc c Hs after_revert Hfail r. subst r.
  rewrite (poll_shape env now d s Hr Hl Hc). fold c. rewrite Hs.
  pose proof (revert_result env (poll_store now s)) as R.
  pose proof (revert_outcome_by_operation env (poll_store now s)) as Rop.
  cbv zeta in R, Rop.
  rewrite (address_restore_fails_ext env s (poll_store now s)) in Rop
    by reflexivity.
  subst after_revert.
  destruct (_revert_spoof env (poll_store now s)) as [[o1 s1] ev1].
  unfold outcome, store, events in *. cbn [fst snd] in *.
  destruct R as (_ & Hlk & Hlog & _).
  destruct Rop as (Heq & Hnone & Hstale).
  destruct (apply_and_record_locked env (spoof_of c) s1) as (o & E & _);
    [now rewrite Hlk|].
  destruct (apply_spec env (spoof_of c) s1)
    as (b & s2 & ev2 & Ea & Hself & _ & Hlog2 & _ & Herr & _ & Hnf & _).
  rewrite Ea in *. unfold outcome, store, events in *. cbn [fst snd] in *.
  injection Hfail as ->.
  rewrite E. cbn [fst snd]. rewrite Hself.
  rewrite revert_failed_app, log_appends_app, Hnf, Hlog, Hlog2, orb_false_r.
  split; [reflexivity|]. split; [exact Hnone|]. split; [|split; [exact Heq|]].
  - intros Hx. destruct (Hstale Hx) as (Hsame & Hact & c' & Hcy & Hrun & Hmsg).
    rewrite Hsame. cbn. repeat split; auto.
    exists c'. rewrite !in_app_iff. tauto.
  - split; [reflexivity|].
    destruct (Herr eq_refl) as [e He]. exists e.
    rewrite !in_app_iff. tauto.
Qed.

(** The plugin that served a request for the network name "unitA",
    then a poll that sees a radio name: the revert succeeds (operations
    7 to 16) and the radio name cannot be set (operation 17).  No spoof
    is left active and nothing is logged to the file. *)
Lemma failed_apply_records_nothing_witness :
  let env := Sample.fails_at 17 in
  let s := Sample.spoofing_unitA in
  let r := on_wifi_update env 100%Q (Some Sample.sees_flip1) s in
  locked s = false
  /\ address_restore_fails env s = false
  /\ In (Run (HciSetName "hci0" "flip1") false) (events r)
  /\ _current_spoof (self (store r)) = None
  /\ log_appends (events r) = [].
Proof.
  cbv zeta.
  assert (check_interval (options (self Sample.spoofing_unitA))
          <= 100 - _last_spoof (self Sample.spoofing_unitA))%Q as Hr
    by (vm_compute; discriminate).
  assert (candidates_of (options (self Sample.spoofing_unitA))
            Sample.sees_flip1 <> [])
    as Hc by (vm_compute; discriminate).
  pose proof (failed_apply_records_nothing (Sample.fails_at 17) 100%Q
                Sample.sees_flip1 Sample.spoofing_unitA Hr eq_refl Hc
                eq_refl eq_refl)
    as (_ & Hnone & _ & _ & Hlog & _).
  split; [reflexivity|]. split; [reflexivity|].
  split; [vm_compute; tauto|].
  split; [apply Hnone; reflexivity | exact Hlog].
Defined.

(** C2 as stated fails.  A plugin without a log file serves a request
    for the network name "unitA" (operations 0 to 6); the next poll
    sees a radio name.  In its revert the network name is restored
    (operations 7 to 13) but the interface cannot be taken down for the
    address restoration (operation 14), and then the radio name cannot
    be set (operation 15).  The apply step failed and "unitA" is still
    recorded as active. *)
Lemma failed_apply_after_failed_revert_stays_active :
  let env := Sample.fails_at2 14 15 in
  let s := store (on_webhook_post env (Some Sample.spoof_wifi_unitA)
                    Sample.idle_no_log) in
  let r := on_wifi_update env 100%Q (Some Sample.sees_flip1) s in
  _current_spoof (self s) = Some Sample.unitA
  /\ locked s = false
  /\ tick s = 7
  /\ events r =
       [Run ReadHostapdConf true; Run (WriteTmpConf (JStr "home-ap")) true;
        Run MoveConf true; Run (IfDown "wlan0") true;
        Run (IfHwEther "wlan0" "00:00:00:00:00:00") true;
        Run (IfUp "wlan0") true; Run RestartHostapd true;
        Diag Info (MsgSpoofedWifi (JStr "home-ap"));
        Run (IfDown "wlan0") false;
        Diag Error (MsgRevertFailed (Failed (IfDown "wlan0")));
        Run (HciSetName "hci0" "flip1") false;
        Diag Error
          (MsgSpoofBluetoothFailed (Failed (HciSetName "hci0" "flip1")))]
  /\ _current_spoof (self (store r)) = Some Sample.unitA
  /\ _current_spoof (self (store r)) <> None.
Proof.
  vm_compute. repeat split. discriminate.
Qed.

Section PollEmpty.
Variable env : Env.

#[local] Arguments _revert_spoof : simpl never.
#[local] Arguments _update_ui : simpl never.
#[local] Arguments candidates_of : simpl never.
#[local] Arguments Qltb : simpl never.
#[local] Arguments Qminus : simpl never.

(** A poll that passed the rate limit, took the lock and found no
    candidate: one revert, then the wait for the lock in [_update_ui]. *)
Lemma poll_empty_shape now d s :
  (check_interval (options (self s)) <= now - _last_spoof (self s))%Q ->
  locked s = false ->
  candidates_of (options (self s)) d = [] ->
  let rv := _revert_spoof env (poll_entry now s) in
  on_wifi_update env now (Some d) s = (Blocked, store rv, events rv).
Proof.
  intros Hr Hl Hc rv.
  unfold on_wifi_update, bind, get, modify, with_lock. cbn.
  rewrite (Qltb_false _ _ Hr). cbn. rewrite Hl, Hc. cbn [is_nil].
  fold (poll_entry now s). fold rv.
  destruct (revert_total env (poll_entry now s)) as (s1 & ev1 & E1 & Hl1 & _).
  subst rv. rewrite E1. unfold store, events. cbn [fst snd].
  rewrite update_ui_locked by (now rewrite Hl1).
  now rewrite app_nil_r.
Qed.

(** A poll that passed the rate limit and found no detector: a
    warning, one revert and the display update. *)
Lemma poll_no_detector_shape now s :
  (check_interval (options (self s)) <= now - _last_spoof (self s))%Q ->
  let rv := _revert_spoof env (with_self (set_last_spoof now) s) in
  let ru := _update_ui (store rv) in
  on_wifi_update env now None s =
    (outcome ru, store ru,
     Diag Warning MsgNoDetector :: events rv ++ events ru).
Proof.
  intros Hr rv ru.
  unfold on_wifi_update, bind, get, modify, emit. cbn.
  rewrite (Qltb_false _ _ Hr). cbn. fold rv.
  destruct (revert_total env (with_self (set_last_spoof now) s))
    as (s1 & ev1 & E1 & _).
  subst ru. subst rv. rewrite E1. unfold outcome, store, events. cbn [fst snd].
  destruct (_update_ui s1) as [[o s2] ev2]. cbn [fst snd].
  destruct o; reflexivity.
Qed.

End PollEmpty.

(** A poll that passed the rate limit and found the detector never
    returns: whatever it does, it ends waiting for [self._lock], which
    the poll itself holds when it calls [_update_ui]. *)
Lemma poll_with_detector_blocks
    (env : Env) (now : Q) (d : Detector) (s : Store) :
  (check_interval (options (self s)) <= now - _last_spoof (self s))%Q ->
  outcome (on_wifi_update env now (Some d) s) = Blocked.
Proof.
  intros Hr. destruct (locked s) eqn:Hl.
  - now rewrite (poll_locked env now d s Hr Hl).
  - destruct (candidates_of (options (self s)) d) as [|c0 cs] eqn:Hc.
    + now rewrite (poll_empty_shape env now d s Hr Hl Hc).
    + assert (candidates_of (options (self s)) d <> []) as Hne
        by (rewrite Hc; discriminate).
      rewrite (poll_shape env now d s Hr Hl Hne).
      now destruct (spoof_is _ _ _).
Qed.

(** C6, as the code has it.  In a poll that passed the rate limit
    with the lock free and found no candidate (or no detector): when a
    spoof was active exactly one revert runs; afterwards no spoof is
    active when none of the operations of the hardware-address
    restoration of that revert failed, and when one of them failed the
    failed revert is logged and the spoof is still recorded as active.
    When no spoof was active no device operation is run.  Nothing is
    added to the log file. *)
Theorem empty_candidates_revert_once
    (env : Env) (now : Q) (detector : option Detector) (s : Store) :
  (check_interval (options (self s)) <= now - _last_spoof (self s))%Q ->
  locked s = false ->
  match detector with
  | Some d => candidates_of (options (self s)) d = []
  | None => True
  end ->
  let r := on_wifi_update env now detector s in
  (forall a,
     _current_spoof (self s) = Some a ->
     revert_reports (events r) = 1
     /\ (address_restore_fails env s = false ->
         _current_spoof (self (store r)) = None)
     /\ (address_restore_fails env s = true ->
         _current_spoof (self (store r)) = Some a
         /\ exists c, is_cycle c = true
              /\ In (Run c false) (events r)
              /\ In (Diag Error (MsgRevertFailed (Failed c))) (events r))
     /\ revert_failed (events r) = address_restore_fails env s)
  /\ (_current_spoof (self s) = None ->
      driver_calls (events r) = []
      /\ _current_spoof (self (store r)) = None)
  /\ log_appends (events r) = [].
Proof.
  intros Hr Hl Hc r. subst r. destruct detector as [d|].
  - rewrite (poll_empty_shape env now d s Hr Hl Hc).
    pose proof (revert_result env (poll_entry now s)) as R.
    pose proof (revert_outcome_by_operation env (poll_entry now s)) as Rop.
    cbv zeta in R, Rop.
    rewrite (address_restore_fails_ext env s (poll_entry now s)) in Rop
      by reflexivity.
    destruct (_revert_spoof env (poll_entry now s)) as [[o1 s1] ev1].
    unfold outcome, store, events in *. cbn [fst snd] in *.
    destruct R as (_ & _ & Hlog & _ & _ & _ & Hidle & Hone).
    destruct Rop as (Heq & Hnone & Hstale).
    cbn in Hstale, Hidle, Hone.
    split; [|split; [|exact Hlog]].
    + intros a Ha. split; [apply Hone; congruence|].
      split; [exact Hnone|]. split; [|exact Heq].
      intros Hx. destruct (Hstale Hx) as (Hsame & _ & Hex).
      split; [now rewrite Hsame | exact Hex].
    + intros Ha. specialize (Hidle Ha). injection Hidle as _ -> ->.
      split; [reflexivity | exact Ha].
  - rewrite (poll_no_detector_shape env now s Hr).
    pose proof (revert_result env (with_self (set_last_spoof now) s)) as R.
    pose proof (revert_outcome_by_operation env
                  (with_self (set_last_spoof now) s)) as Rop.
    cbv zeta in R, Rop.
    rewrite (address_restore_fails_ext env s
               (with_self (set_last_spoof now) s)) in Rop by reflexivity.
    destruct (_revert_spoof env (with_self (set_last_spoof now) s))
      as [[o1 s1] ev1].
    unfold outcome, store, events in *. cbn [fst snd] in *.
    destruct R as (_ & _ & Hlog & _ & _ & _ & Hidle & Hone).
    destruct Rop as (Heq & Hnone & Hstale).
    cbn in Hstale, Hidle, Hone.
    destruct (update_ui_spec s1) as (o & s2 & ev2 & E & Hs2 & Hev).
    rewrite E. cbn [fst snd]. rewrite Hs2.
    assert (revert_reports ev2 = 0 /\ revert_failed ev2 = false
            /\ driver_calls ev2 = [] /\ log_appends ev2 = []
            /\ forall e, is_run e = true \/ is_revert_failure e = true ->
                         ~ In e ev2)
      as (U1 & U2 & U3 & U4 & U5).
    { destruct Hev as [-> | [d ->]]; repeat split; auto.
      intros e [He | He] [<- | []]; discriminate He. }
    change (Diag Warning MsgNoDetector :: ev1 ++ ev2)
      with ([Diag Warning MsgNoDetector] ++ ev1 ++ ev2).
    rewrite !revert_reports_app, !revert_failed_app, !driver_calls_app,
      !log_appends_app, U1, U2, U3, U4, Hlog, orb_false_r, app_nil_r.
    change (revert_reports [Diag Warning MsgNoDetector]) with 0.
    change (revert_failed [Diag Warning MsgNoDetector]) with false.
    change (driver_calls [Diag Warning MsgNoDetector]) with (@nil Event).
    change (log_appends [Diag Warning MsgNoDetector]) with (@nil Event).
    cbn [orb Nat.add app]. rewrite Nat.add_0_r.
    split; [|split; [|reflexivity]].
    + intros a Ha. split; [apply Hone; congruence|].
      split; [exact Hnone|]. split; [|exact Heq].
      intros Hx. destruct (Hstale Hx) as (Hsame & _ & c & Hcy & Hrun & Hmsg).
      split; [now rewrite Hsame|].
      exists c. split; [exact Hcy|].
      split; right; apply in_or_app; now left.
    + intros Ha. specialize (Hidle Ha). injection Hidle as _ -> ->.
      split; [reflexivity | exact Ha].
Qed.

(** The plugin that served a request for the network name "unitA" and
    a detector that sees nothing: the poll reverts once, every operation
    succeeds and no spoof is left active. *)
Lemma empty_candidates_revert_once_witness :
  let s := Sample.spoofing_unitA in
  let r := on_wifi_update Sample.all_ok 100%Q (Some Sample.sees_nothing) s in
  locked s = false
  /\ candidates_of (options (self s)) Sample.sees_nothing = []
  /\ _current_spoof (self s) = Some Sample.unitA
  /\ address_restore_fails Sample.all_ok s = false
  /\ revert_reports (events r) = 1
  /\ _current_spoof (self (store r)) = None.
Proof.
  cbv zeta.
  assert (check_interval (options (self Sample.spoofing_unitA))
          <= 100 - _last_spoof (self Sample.spoofing_unitA))%Q as Hr
    by (vm_compute; discriminate).
  pose proof (empty_candidates_revert_once Sample.all_ok 100%Q
                (Some Sample.sees_nothing) Sample.spoofing_unitA
                Hr eq_refl eq_refl) as (Hact & _).
  destruct (Hact Sample.unitA eq_refl) as (Hone & Hnone & _).
  split; [reflexivity|]. split; [reflexivity|]. split; [reflexivity|].
  split; [reflexivity|].
  split; [exact Hone | apply Hnone; reflexivity].
Defined.

(** C6 as stated fails.  A plugin without a log file serves a request
    for the network name "unitA" (operations 0 to 6); at the next poll
    the detector sees nothing.  In the revert the network name is
    restored (operations 7 to 13) and the interface cannot be taken down
    for the address restoration (operation 14).  One revert ran and
    "unitA" is still recorded as active. *)
Lemma empty_candidates_failed_revert_stays_active :
  let env := Sample.fails_at 14 in
  let s := store (on_webhook_post env (Some Sample.spoof_wifi_unitA)
                    Sample.idle_no_log) in
  let r := on_wifi_update env 100%Q (Some Sample.sees_nothing) s in
  _current_spoof (self s) = Some Sample.unitA
  /\ locked s = false
  /\ tick s = 7
  /\ candidates_of (options (self s)) Sample.sees_nothing = []
  /\ events r =
       [Run ReadHostapdConf true; Run (WriteTmpConf (JStr "home-ap")) true;
        Run MoveConf true; Run (IfDown "wlan0") true;
        Run (IfHwEther "wlan0" "00:00:00:00:00:00") true;
        Run (IfUp "wlan0") true; Run RestartHostapd true;
        Diag Info (MsgSpoofedWifi (JStr "home-ap"));
        Run (IfDown "wlan0") false;
        Diag Error (MsgRevertFailed (Failed (IfDown "wlan0")))]
  /\ revert_reports (events r) = 1
  /\ _current_spoof (self (store r)) = Some Sample.unitA
  /\ _current_spoof (self (store r)) <> None.
Proof.
  vm_compute. repeat split. discriminate.
Qed.

Lemma Qltb_false_inv a b : Qltb a b = false -> (b <= a)%Q.
Proof.
  unfold Qltb. intros H. apply Qle_bool_iff.
  now destruct (Qle_bool b a).
Qed.


Lemma spoof_is_spoof_of c : spoof_is (Some (spoof_of c)) (fst c) (snd c) = true.
Proof. cbn. now rewrite !String.eqb_refl. Qed.




(** ** The control endpoint *)

(** C8, as the code has it.  A request whose body cannot be decoded,
    or is decoded to something that names no command, never makes the
    endpoint raise: it returns a response, leaves the store unchanged,
    runs no device operation and adds nothing to the log file.  The
    response has status "error" when the body cannot be decoded; it
    has status "success" for every JSON object, in particular for a
    "spoof" action without "type" or "name". *)
Theorem malformed_request_changes_nothing
    (env : Env) (body : option Json) (s : Store) :
  match body with
  | Some data => is_command data = false
  | None => True
  end ->
  let r := on_webhook_post env body s in
  store r = s
  /\ driver_calls (events r) = []
  /\ log_appends (events r) = []
  /\ (exists resp, outcome r = Done resp)
  /\ (body = None -> outcome r = Done (StatusError BadBody))
  /\ (forall kv, body = Some (JObj kv) -> outcome r = Done StatusSuccess).
Proof.
  intros H r. subst r.
  unfold on_webhook_post, try_except, bind, py_in, py_getitem, raise, ret, emit.
  destruct body as [data|]; cbn.
  2: { repeat split; eauto; try discriminate. }
  destruct data; cbn; try (repeat split; eauto; try discriminate; fail).
  - (* a string *)
    destruct (PyStr.contains "action" s0); cbn; repeat split; eauto;
      try discriminate.
  - (* an array *)
    destruct (existsb (fun v => py_eq_str v "action") l); cbn;
      repeat split; eauto; try discriminate.
  - (* an object *)
    cbn in H.
    destruct (lookup "action" kv) as [a|]; cbn.
    2: { repeat split; eauto; try discriminate. }
    apply orb_false_iff in H as [Hrev Hsp]. rewrite Hrev.
    destruct (py_eq_str a "spoof"); cbn.
    2: { repeat split; eauto; try discriminate. }
    cbn in Hsp.
    destruct (lookup "type" kv); cbn.
    2: { repeat split; eauto; try discriminate. }
    destruct (lookup "name" kv); cbn; [discriminate|].
    repeat split; eauto; try discriminate.
Qed.

(** The body [{"action": "spoof"}] and a body that cannot be decoded. *)
Lemma malformed_request_changes_nothing_witness :
  let r := on_webhook_post Sample.all_ok (Some Sample.spoof_without_target)
             Sample.idle in
  is_command Sample.spoof_without_target = false
  /\ store r = Sample.idle
  /\ driver_calls (events r) = []
  /\ outcome r = Done StatusSuccess
  /\ outcome (on_webhook_post Sample.all_ok None Sample.idle)
     = Done (StatusError BadBody).
Proof.
  cbv zeta.
  pose proof (malformed_request_changes_nothing Sample.all_ok
                (Some Sample.spoof_without_target) Sample.idle eq_refl)
    as (Hstore & Hcalls & _ & _ & _ & Hobj).
  pose proof (malformed_request_changes_nothing Sample.all_ok None
                Sample.idle I) as (_ & _ & _ & _ & Herr & _).
  split; [reflexivity|]. split; [exact Hstore|]. split; [exact Hcalls|].
  split; [now apply (Hobj [("action", JStr "spoof")]) | now apply Herr].
Defined.

(** C8 as stated fails: the body [{"action": "spoof"}], which has
    neither "type" nor "name", is answered with status "success". *)
Lemma spoof_without_target_answers_success :
  let r := on_webhook_post Sample.all_ok (Some Sample.spoof_without_target)
             Sample.idle in
  lookup "name" [("action", JStr "spoof")] = None
  /\ outcome r = Done StatusSuccess
  /\ (forall e, outcome r <> Done (StatusError e)).
Proof.
  vm_compute. repeat split. intros e; discriminate.
Qed.


#[local] Arguments _revert_spoof : simpl never.
#[local] Arguments _log_spoof : simpl never.
#[local] Arguments _update_ui : simpl never.

(** A "spoof" request with a "type" and a "name" takes the lock before
    anything else: while the lock is held it waits, and nothing is
    run. *)
Lemma spoof_request_locked
    (env : Env) (kv : list (string * Json)) (t n : Json) (s : Store) :
  locked s = true ->
  lookup "action" kv = Some (JStr "spoof") ->
  lookup "type" kv = Some t ->
  lookup "name" kv = Some n ->
  on_webhook_post env (Some (JObj kv)) s = (Blocked, s, []).
Proof.
  intros Hl Ha Ht Hn.
  unfold on_webhook_post, try_except, py_in, py_getitem, bind, ret, with_lock.
  cbn. rewrite Ha. cbn.
  change (String.eqb "spoof" "revert") with false.
  change (String.eqb "spoof" "spoof") with true. cbn.
  rewrite Ht, Hn. cbn. now rewrite Hl.
Qed.






(** * Further properties *)

(** ** What no run changes *)

Lemma configuration_kept_refl p : configuration_kept p p.
Proof. repeat split. Qed.

Lemma configuration_kept_trans p q r :
  configuration_kept p q -> configuration_kept q r -> configuration_kept p r.
Proof.
  intros (A1 & A2 & A3 & A4 & A5) (B1 & B2 & B3 & B4 & B5).
  repeat split; congruence.
Qed.

Lemma keeps_ret {A} (a : A) : keeps_configuration (ret a).
Proof. intros s. apply configuration_kept_refl. Qed.

Lemma keeps_raise {A} e : keeps_configuration (@raise A e).
Proof. intros s. apply configuration_kept_refl. Qed.

Lemma keeps_emit e : keeps_configuration (emit e).
Proof. intros s. apply configuration_kept_refl. Qed.

Lemma keeps_get : keeps_configuration get.
Proof. intros s. apply configuration_kept_refl. Qed.

Lemma keeps_set_current v : keeps_configuration (modify (set_current_spoof v)).
Proof. intros s. repeat split. Qed.

Lemma keeps_set_last t : keeps_configuration (modify (set_last_spoof t)).
Proof. intros s. repeat split. Qed.

Lemma keeps_run env c : keeps_configuration (run env c).
Proof. intros s. unfold run. destruct (ok env (tick s)); repeat split. Qed.

Lemma keeps_read env c : keeps_configuration (read env c).
Proof. intros s. unfold read. destruct (ok env (tick s)); repeat split. Qed.

Lemma keeps_randint env : keeps_configuration (randint256 env).
Proof. intros s. repeat split. Qed.

Lemma keeps_choice env {A} (d : A) l : keeps_configuration (choice env d l).
Proof. intros s. repeat split. Qed.

Lemma keeps_gps env : keeps_configuration (gps_get_current env).
Proof.
  intros s. unfold gps_get_current. destruct (ok env (tick s)); repeat split.
Qed.

Lemma keeps_strftime env : keeps_configuration (strftime env).
Proof. intros s. repeat split. Qed.

Lemma keeps_append env e : keeps_configuration (append_line env e).
Proof.
  intros s. unfold append_line. destruct (ok env (tick s)); repeat split.
Qed.

Lemma keeps_bind {A B} (m : M A) (k : A -> M B) :
  keeps_configuration m -> (forall a, keeps_configuration (k a)) ->
  keeps_configuration (bind m k).
Proof.
  intros Hm Hk s. unfold bind. specialize (Hm s).
  destruct (m s) as [[[a | e |] s1] ev1]; cbn in *; try exact Hm.
  specialize (Hk a s1). destruct (k a s1) as [[o2 s2] ev2]. cbn in *.
  eapply configuration_kept_trans; eassumption.
Qed.

Lemma keeps_try {A} (m : M A) (h : Exn -> M A) :
  keeps_configuration m -> (forall e, keeps_configuration (h e)) ->
  keeps_configuration (try_except m h).
Proof.
  intros Hm Hh s. unfold try_except. specialize (Hm s).
  destruct (m s) as [[[a | e |] s1] ev1]; cbn in *; try exact Hm.
  specialize (Hh e s1). destruct (h e s1) as [[o2 s2] ev2]. cbn in *.
  eapply configuration_kept_trans; eassumption.
Qed.

Lemma keeps_with_lock {A} (m : M A) :
  keeps_configuration m -> keeps_configuration (with_lock m).
Proof.
  intros Hm s. unfold with_lock. destruct (locked s).
  - apply configuration_kept_refl.
  - specialize (Hm (with_locked true s)).
    destruct (m (with_locked true s)) as [[[a | e |] s1] ev1]; exact Hm.
Qed.

Create HintDb keeps discriminated.
#[local] Hint Resolve keeps_ret keeps_raise keeps_emit keeps_get
  keeps_set_current keeps_set_last keeps_run keeps_read keeps_randint
  keeps_choice keeps_gps keeps_strftime keeps_append : keeps.

Ltac keeps_step :=
  cbv beta;
  match goal with
  | |- keeps_configuration (bind _ _) => apply keeps_bind; [|intros ?]
  | |- keeps_configuration (try_except _ _) => apply keeps_try; [|intros ?]
  | |- keeps_configuration (with_lock _) => apply keeps_with_lock
  | |- keeps_configuration (if ?b then _ else _) => destruct b
  | |- keeps_configuration (match ?x with _ => _ end) => destruct x
  | |- keeps_configuration _ => solve [auto with keeps]
  end.

Ltac keeps_all := repeat keeps_step.

Lemma keeps_spoof_wifi env ssid : keeps_configuration (_spoof_wifi env ssid).
Proof. unfold _spoof_wifi, set_mac, random_mac. keeps_all. Qed.

Lemma keeps_spoof_bluetooth env name :
  keeps_configuration (_spoof_bluetooth env name).
Proof. unfold _spoof_bluetooth. keeps_all. Qed.

#[local] Hint Resolve keeps_spoof_wifi keeps_spoof_bluetooth : keeps.

Lemma keeps_revert_spoof env : keeps_configuration (_revert_spoof env).
Proof. unfold _revert_spoof, set_mac. keeps_all. Qed.

Lemma keeps_get_gps_data env : keeps_configuration (_get_gps_data env).
Proof. unfold _get_gps_data. keeps_all. Qed.

#[local] Hint Resolve keeps_revert_spoof keeps_get_gps_data : keeps.

Lemma keeps_log_spoof env : keeps_configuration (_log_spoof env).
Proof. unfold _log_spoof. keeps_all. Qed.

Lemma keeps_update_ui : keeps_configuration _update_ui.
Proof. unfold _update_ui, slice20, title_of. keeps_all. Qed.

#[local] Hint Resolve keeps_log_spoof keeps_update_ui : keeps.

Lemma keeps_apply_and_record env r :
  keeps_configuration (apply_and_record env r).
Proof. unfold apply_and_record, apply. keeps_all. Qed.

#[local] Hint Resolve keeps_apply_and_record : keeps.

Lemma keeps_on_wifi_update env now detector :
  keeps_configuration (on_wifi_update env now detector).
Proof. unfold on_wifi_update. keeps_all. Qed.

Lemma keeps_on_webhook_post env body :
  keeps_configuration (on_webhook_post env body).
Proof. unfold on_webhook_post, py_in, py_getitem. keeps_all. Qed.

Lemma keeps_on_unloaded env : keeps_configuration (on_unloaded env).
Proof. unfold on_unloaded. keeps_all. Qed.

Lemma keeps_call env c s :
  configuration_kept (self s) (self (fst (call env c s))).
Proof.
  destruct c; cbn.
  - apply keeps_on_wifi_update.
  - apply keeps_on_webhook_post.
  - apply keeps_update_ui.
  - apply keeps_on_unloaded.
Qed.

(** X1.  Whatever the host calls after the load, in any order and with
    any results of the device operations, the options, the GPS
    availability and the three captured original values stay as they
    were: only [on_loaded] writes them. *)
Theorem configuration_survives_every_call
    (env : Env) (cs : list Call) (s : Store) :
  configuration_kept (self s) (self (fst (calls env cs s))).
Proof.
  revert s. induction cs as [|c rest IH]; intros s; cbn.
  - apply configuration_kept_refl.
  - pose proof (keeps_call env c s) as Hc.
    destruct (call env c s) as [s1 ev1]. specialize (IH s1).
    destruct (calls env rest s1) as [s2 ev2]. cbn in *.
    eapply configuration_kept_trans; eassumption.
Qed.

(** ** The log file and the lock *)

Lemma quiet_ret {A} (a : A) : quiet_under_lock (ret a).
Proof. intros s H. now split. Qed.

Lemma quiet_raise {A} e : quiet_under_lock (@raise A e).
Proof. intros s H. now split. Qed.

Lemma quiet_emit e : is_append e = false -> quiet_under_lock (emit e).
Proof. intros He s H. cbn. rewrite He. now split. Qed.

Lemma quiet_get : quiet_under_lock get.
Proof. intros s H. now split. Qed.

Lemma quiet_modify f : quiet_under_lock (modify f).
Proof. intros s H. now split. Qed.

Lemma quiet_run env c : quiet_under_lock (run env c).
Proof. intros s H. unfold run. destruct (ok env (tick s)); now split. Qed.

Lemma quiet_read env c : quiet_under_lock (read env c).
Proof. intros s H. unfold read. destruct (ok env (tick s)); now split. Qed.

Lemma quiet_randint env : quiet_under_lock (randint256 env).
Proof. intros s H. now split. Qed.

Lemma quiet_choice env {A} (d : A) l : quiet_under_lock (choice env d l).
Proof. intros s H. now split. Qed.

Lemma quiet_bind {A B} (m : M A) (k : A -> M B) :
  quiet_under_lock m -> (forall a, quiet_under_lock (k a)) ->
  quiet_under_lock (bind m k).
Proof.
  intros Hm Hk s H. unfold bind. destruct (Hm s H) as [Ha Hl].
  destruct (m s) as [[[a | e |] s1] ev1];
    unfold store, events in *; cbn [fst snd] in *; try now split.
  destruct (Hk a s1 Hl) as [Ha2 Hl2].
  destruct (k a s1) as [[o2 s2] ev2].
  unfold store, events in *; cbn [fst snd] in *.
  now rewrite log_appends_app, Ha, Ha2.
Qed.

Lemma quiet_try {A} (m : M A) (h : Exn -> M A) :
  quiet_under_lock m -> (forall e, quiet_under_lock (h e)) ->
  quiet_under_lock (try_except m h).
Proof.
  intros Hm Hh s H. unfold try_except. destruct (Hm s H) as [Ha Hl].
  destruct (m s) as [[[a | e |] s1] ev1];
    unfold store, events in *; cbn [fst snd] in *; try now split.
  destruct (Hh e s1 Hl) as [Ha2 Hl2].
  destruct (h e s1) as [[o2 s2] ev2].
  unfold store, events in *; cbn [fst snd] in *.
  now rewrite log_appends_app, Ha, Ha2.
Qed.

(** Taking the lock while it is held: the block is never entered. *)
Lemma quiet_with_lock {A} (m : M A) : quiet_under_lock (with_lock m).
Proof. intros s H. unfold with_lock. rewrite H. now split. Qed.

Create HintDb quiet discriminated.
#[local] Hint Resolve quiet_ret quiet_raise quiet_get quiet_modify quiet_run
  quiet_read quiet_randint quiet_choice quiet_with_lock : quiet.

Ltac quiet_step :=
  cbv beta;
  match goal with
  | |- quiet_under_lock (with_lock _) => apply quiet_with_lock
  | |- quiet_under_lock (bind _ _) => apply quiet_bind; [|intros ?]
  | |- quiet_under_lock (try_except _ _) => apply quiet_try; [|intros ?]
  | |- quiet_under_lock (emit _) => apply quiet_emit; reflexivity
  | |- quiet_under_lock (if ?b then _ else _) => destruct b
  | |- quiet_under_lock (match ?x with _ => _ end) => destruct x
  | |- quiet_under_lock _ => solve [auto with quiet]
  end.

Ltac quiet_all := repeat quiet_step.

Lemma quiet_spoof_wifi env ssid : quiet_under_lock (_spoof_wifi env ssid).
Proof. unfold _spoof_wifi, set_mac, random_mac. quiet_all. Qed.

Lemma quiet_spoof_bluetooth env name :
  quiet_under_lock (_spoof_bluetooth env name).
Proof. unfold _spoof_bluetooth. quiet_all. Qed.

#[local] Hint Resolve quiet_spoof_wifi quiet_spoof_bluetooth : quiet.

Lemma quiet_revert_spoof env : quiet_under_lock (_revert_spoof env).
Proof. unfold _revert_spoof, set_mac. quiet_all. Qed.

(** The only place that writes the log file is inside [with self._lock]. *)
Lemma quiet_log_spoof env : quiet_under_lock (_log_spoof env).
Proof. unfold _log_spoof. quiet_all. Qed.

Lemma quiet_update_ui : quiet_under_lock _update_ui.
Proof. unfold _update_ui, slice20, title_of. quiet_all. Qed.

#[local] Hint Resolve quiet_revert_spoof quiet_log_spoof quiet_update_ui : quiet.

Lemma quiet_apply_and_record env r : quiet_under_lock (apply_and_record env r).
Proof. unfold apply_and_record, apply. quiet_all. Qed.

#[local] Hint Resolve quiet_apply_and_record : quiet.

Lemma quiet_on_wifi_update env now detector :
  quiet_under_lock (on_wifi_update env now detector).
Proof. unfold on_wifi_update. quiet_all. Qed.

Lemma quiet_on_webhook_post env body :
  quiet_under_lock (on_webhook_post env body).
Proof. unfold on_webhook_post, py_in, py_getitem. quiet_all. Qed.

Lemma quiet_on_unloaded env : quiet_under_lock (on_unloaded env).
Proof. unfold on_unloaded. quiet_all. Qed.

Lemma never_ret {A} (a : A) : never_appends (ret a).
Proof. intros s. reflexivity. Qed.

Lemma never_raise {A} e : never_appends (@raise A e).
Proof. intros s. reflexivity. Qed.

Lemma never_emit e : is_append e = false -> never_appends (emit e).
Proof. intros He s. cbn. now rewrite He. Qed.

Lemma never_get : never_appends get.
Proof. intros s. reflexivity. Qed.

Lemma never_modify f : never_appends (modify f).
Proof. intros s. reflexivity. Qed.

Lemma never_run env c : never_appends (run env c).
Proof. intros s. unfold run. now destruct (ok env (tick s)). Qed.

Lemma never_read env c : never_appends (read env c).
Proof. intros s. unfold read. now destruct (ok env (tick s)). Qed.

Lemma never_randint env : never_appends (randint256 env).
Proof. intros s. reflexivity. Qed.

Lemma never_choice env {A} (d : A) l : never_appends (choice env d l).
Proof. intros s. reflexivity. Qed.

Lemma never_bind {A B} (m : M A) (k : A -> M B) :
  never_appends m -> (forall a, never_appends (k a)) ->
  never_appends (bind m k).
Proof.
  intros Hm Hk s. unfold bind. specialize (Hm s).
  destruct (m s) as [[[a | e |] s1] ev1];
    unfold events in *; cbn [fst snd] in *; try assumption.
  specialize (Hk a s1). destruct (k a s1) as [[o2 s2] ev2].
  unfold events in *; cbn [fst snd] in *.
  now rewrite log_appends_app, Hm, Hk.
Qed.

Lemma never_try {A} (m : M A) (h : Exn -> M A) :
  never_appends m -> (forall e, never_appends (h e)) ->
  never_appends (try_except m h).
Proof.
  intros Hm Hh s. unfold try_except. specialize (Hm s).
  destruct (m s) as [[[a | e |] s1] ev1];
    unfold events in *; cbn [fst snd] in *; try assumption.
  specialize (Hh e s1). destruct (h e s1) as [[o2 s2] ev2].
  unfold events in *; cbn [fst snd] in *.
  now rewrite log_appends_app, Hm, Hh.
Qed.

(** A block that is quiet under the lock adds nothing to the log file
    when it is run through [with self._lock]. *)
Lemma never_with_lock {A} (m : M A) :
  quiet_under_lock m -> never_appends (with_lock m).
Proof.
  intros Hm s. unfold with_lock. destruct (locked s); [reflexivity|].
  destruct (Hm (with_locked true s) eq_refl) as [Ha _].
  destruct (m (with_locked true s)) as [[[a | e |] s1] ev1]; exact Ha.
Qed.

Create HintDb never discriminated.
#[local] Hint Resolve never_ret never_raise never_get never_modify never_run
  never_read never_randint never_choice : never.

Ltac never_step :=
  cbv beta;
  match goal with
  | |- never_appends (with_lock _) => apply never_with_lock; quiet_all
  | |- never_appends (bind _ _) => apply never_bind; [|intros ?]
  | |- never_appends (try_except _ _) => apply never_try; [|intros ?]
  | |- never_appends (emit _) => apply never_emit; reflexivity
  | |- never_appends (if ?b then _ else _) => destruct b
  | |- never_appends (match ?x with _ => _ end) => destruct x
  | |- never_appends _ => solve [auto with never]
  end.

Ltac never_all := repeat never_step.

Lemma never_spoof_wifi env ssid : never_appends (_spoof_wifi env ssid).
Proof. unfold _spoof_wifi, set_mac, random_mac. never_all. Qed.

Lemma never_spoof_bluetooth env name :
  never_appends (_spoof_bluetooth env name).
Proof. unfold _spoof_bluetooth. never_all. Qed.

#[local] Hint Resolve never_spoof_wifi never_spoof_bluetooth : never.

Lemma never_revert_spoof env : never_appends (_revert_spoof env).
Proof. unfold _revert_spoof, set_mac. never_all. Qed.

Lemma never_update_ui : never_appends _update_ui.
Proof. unfold _update_ui, slice20, title_of. never_all. Qed.

#[local] Hint Resolve never_revert_spoof never_update_ui : never.

Lemma never_on_wifi_update env now detector :
  never_appends (on_wifi_update env now detector).
Proof. unfold on_wifi_update. never_all. Qed.

Lemma never_on_webhook_post env body :
  never_appends (on_webhook_post env body).
Proof. unfold on_webhook_post, py_in, py_getitem. never_all. Qed.

Lemma never_on_unloaded env : never_appends (on_unloaded env).
Proof. unfold on_unloaded. never_all. Qed.

Lemma never_call env c s : log_appends (snd (call env c s)) = [].
Proof.
  destruct c; cbn [call snd].
  - apply never_on_wifi_update.
  - apply never_on_webhook_post.
  - apply never_update_ui.
  - apply never_on_unloaded.
Qed.

(** X2.  No sequence of polls, control requests, display updates and
    unloads ever adds a line to the log file: the only call of
    [_log_spoof] in each of [on_wifi_update] and [on_webhook] is made
    while [self._lock] is held, and [_log_spoof] takes that lock before
    it writes. *)
Theorem log_file_is_never_written
    (env : Env) (cs : list Call) (s : Store) :
  log_appends (snd (calls env cs s)) = [].
Proof.
  revert s. induction cs as [|c rest IH]; intros s; cbn [calls].
  - reflexivity.
  - pose proof (never_call env c s) as Hc.
    destruct (call env c s) as [s1 ev1]. specialize (IH s1).
    destruct (calls env rest s1) as [s2 ev2]. cbn [snd] in *.
    now rewrite log_appends_app, Hc, IH.
Qed.

(** X3.  Called with the lock free and a log file configured,
    [_log_spoof] returns with the lock free again and the plugin object
    unchanged, runs no device operation, and either adds exactly one
    line, which holds the active spoof (and no position when the GPS is
    not available), or reports that the write failed. *)
Theorem log_spoof_with_free_lock (env : Env) (s : Store) :
  locked s = false ->
  log_file (options (self s)) <> "" ->
  let r := _log_spoof env s in
  outcome r = Done tt
  /\ self (store r) = self s
  /\ locked (store r) = false
  /\ driver_calls (events r) = []
  /\ ((exists ts g,
         log_appends (events r)
           = [Append (mkEntry ts (_current_spoof (self s)) g)]
         /\ (_gps_available (self s) = false -> g = None))
      \/ (log_appends (events r) = []
          /\ In (Diag Error (MsgLogFailed LogIOError)) (events r))).
Proof.
  intros Hl Hf r. subst r.
  apply String.eqb_neq in Hf.
  destruct (_gps_available (self s)) eqn:Hg.
  all: unfold _log_spoof.
  all: repeat (unfold bind, get, try_except, with_lock, _get_gps_data,
                 gps_get_current, strftime, append_line, ret, emit;
               cbn; rewrite ?Hf, ?Hl, ?Hg; cbn;
               try match goal with
                   | |- context [ok ?e ?n] => destruct (ok e n)
                   | |- context [(2 <=? ?z)%Z] => destruct (2 <=? z)%Z
                   end).
  all: repeat split.
  all: first [ left; do 2 eexists; split; [reflexivity | ];
               first [discriminate | reflexivity]
             | right; split; [reflexivity | find_in] ].
Qed.

Lemma log_spoof_with_free_lock_witness :
  let s := Sample.spoofing Sample.unitA in
  let r := _log_spoof Sample.all_ok s in
  locked s = false
  /\ log_file (options (self s)) <> ""
  /\ outcome r = Done tt
  /\ log_appends (events r) = [Append (mkEntry "" (Some Sample.unitA) None)].
Proof.
  cbv zeta.
  assert (log_file (options (self (Sample.spoofing Sample.unitA))) <> "")
    as Hf by discriminate.
  pose proof (log_spoof_with_free_lock Sample.all_ok
                (Sample.spoofing Sample.unitA) eq_refl Hf) as (Ho & _).
  split; [reflexivity|]. split; [exact Hf|]. split; [exact Ho|].
  reflexivity.
Defined.

Lemma held_call env c s :
  locked s = true -> locked (fst (call env c s)) = true.
Proof.
  intros H. destruct c; cbn [call fst].
  - now apply quiet_on_wifi_update.
  - now apply quiet_on_webhook_post.
  - now apply quiet_update_ui.
  - now apply quiet_on_unloaded.
Qed.

Lemma held_calls env cs s :
  locked s = true -> locked (fst (calls env cs s)) = true.
Proof.
  revert s. induction cs as [|c rest IH]; intros s H; cbn [calls].
  - exact H.
  - pose proof (held_call env c s H) as Hc.
    destruct (call env c s) as [s1 ev1]. specialize (IH s1 Hc).
    now destruct (calls env rest s1) as [s2 ev2].
Qed.

(** A poll that passed the rate limit and found the detector leaves the
    lock held. *)
Lemma poll_takes_lock env now d s :
  (check_interval (options (self s)) <= now - _last_spoof (self s))%Q ->
  locked (store (on_wifi_update env now (Some d) s)) = true.
Proof.
  intros Hr. destruct (locked s) eqn:Hl.
  - now apply quiet_on_wifi_update.
  - destruct (candidates_of (options (self s)) d) as [|c0 cs] eqn:Hc.
    + rewrite (poll_empty_shape env now d s Hr Hl Hc).
      unfold store at 1. cbn [fst snd].
      now apply quiet_revert_spoof.
    + assert (candidates_of (options (self s)) d <> []) as Hne
        by (rewrite Hc; discriminate).
      rewrite (poll_shape env now d s Hr Hl Hne).
      destruct (spoof_is _ _ _); unfold store at 1; cbn [fst snd].
      * reflexivity.
      * apply quiet_apply_and_record. now apply quiet_revert_spoof.
Qed.

(** X4.  After one poll that passed the rate limit and found the
    detector, the lock is held for good.  Whatever is called
    afterwards: a display update never returns; an unload never
    returns; a later poll that finds the detector runs no device
    operation; a later poll that does not find the detector and passes
    the rate limit still reverts, since that revert is made outside the
    lock, and then never returns; and a "spoof" request with a type and
    a name never returns, runs nothing and changes nothing. *)
Theorem lock_is_never_released_after_poll
    (env : Env) (now : Q) (d : Detector) (s : Store) (cs : list Call) :
  (check_interval (options (self s)) <= now - _last_spoof (self s))%Q ->
  let later := fst (calls env cs (store (on_wifi_update env now (Some d) s))) in
  locked later = true
  /\ outcome (on_ui_update later) = Blocked
  /\ outcome (on_unloaded env later) = Blocked
  /\ (forall now' detector',
        driver_calls (events (on_wifi_update env now' (Some detector') later))
        = [])
  /\ (forall now',
        (check_interval (options (self later))
         <= now' - _last_spoof (self later))%Q ->
        let r := on_wifi_update env now' None later in
        outcome r = Blocked
        /\ events r =
             Diag Warning MsgNoDetector
             :: events (_revert_spoof env
                          (with_self (set_last_spoof now') later)))
  /\ (forall kv t n,
        lookup "action" kv = Some (JStr "spoof") ->
        lookup "type" kv = Some t ->
        lookup "name" kv = Some n ->
        on_webhook_post env (Some (JObj kv)) later = (Blocked, later, [])).
Proof.
  intros Hr later.
  assert (locked later = true) as Hl
    by (apply held_calls; now apply poll_takes_lock).
  split; [exact Hl|]. split; [|split; [|split; [|split]]].
  - unfold on_ui_update. now rewrite update_ui_locked.
  - unfold on_unloaded, bind, emit. cbn [fst snd].
    destruct (revert_total env later) as (s1 & ev1 & E & Hl1 & _).
    rewrite E. unfold with_lock. rewrite Hl1, Hl. reflexivity.
  - intros now' d'.
    destruct (Qltb (now' - _last_spoof (self later))
                (check_interval (options (self later)))) eqn:Hq.
    + unfold on_wifi_update, bind, get. cbn. now rewrite Hq.
    + apply Qltb_false_inv in Hq. now rewrite (poll_locked env now' d' later Hq Hl).
  - intros now' Hq r. subst r.
    rewrite (poll_no_detector_shape env now' later Hq).
    destruct (revert_total env (with_self (set_last_spoof now') later))
      as (s1 & ev1 & E & Hl1 & _).
    rewrite E. unfold outcome, store, events. cbn [fst snd].
    rewrite update_ui_locked by (now rewrite Hl1).
    cbn [fst snd]. now rewrite app_nil_r.
  - intros kv t n Ha Ht Hn.
    exact (spoof_request_locked env kv t n later Hl Ha Ht Hn).
Qed.

Lemma lock_is_never_released_after_poll_witness :
  let s := Sample.idle in
  let later :=
    fst (calls Sample.all_ok [CallUiUpdate; CallWebhookPost None]
           (store (on_wifi_update Sample.all_ok 100%Q
                     (Some Sample.sees_nothing) s))) in
  (check_interval (options (self s)) <= 100 - _last_spoof (self s))%Q
  /\ locked later = true
  /\ outcome (on_ui_update later) = Blocked.
Proof.
  cbv zeta.
  assert (check_interval (options (self Sample.idle))
          <= 100 - _last_spoof (self Sample.idle))%Q as Hr
    by (vm_compute; discriminate).
  pose proof (lock_is_never_released_after_poll Sample.all_ok 100%Q
                Sample.sees_nothing Sample.idle
                [CallUiUpdate; CallWebhookPost None] Hr) as (H1 & H2 & _).
  split; [exact Hr|]. split; assumption.
Defined.

(** X5.  [on_unloaded] reverts before it takes the lock, so the revert
    runs whether or not the lock is held.  With the lock free the call
    returns, with the lock free again, after the revert and the removal
    of the display element; with the lock held it runs the revert and
    then never returns.  Either way the plugin object is what the
    revert left. *)
Theorem unload_reverts_outside_the_lock (env : Env) (s : Store) :
  let rv := _revert_spoof env s in
  let r := on_unloaded env s in
  self (store r) = self (store rv)
  /\ (locked s = false ->
      outcome r = Done tt
      /\ locked (store r) = false
      /\ events r = Diag Info MsgUnloaded :: events rv ++ [UiRemove])
  /\ (locked s = true ->
      outcome r = Blocked
      /\ events r = Diag Info MsgUnloaded :: events rv).
Proof.
  intros rv r. subst rv r.
  unfold on_unloaded, bind, emit. cbn [fst snd].
  destruct (revert_total env s) as (s1 & ev1 & E & Hl1 & _).
  rewrite E. unfold with_lock, outcome, store, events. cbn [fst snd].
  rewrite Hl1. destruct (locked s); cbn.
  - split; [reflexivity|]. split; [discriminate|].
    intros _. now rewrite app_nil_r.
  - split; [reflexivity|]. split; [|discriminate].
    intros _. repeat split.
Qed.

Lemma unload_reverts_outside_the_lock_witness :
  let s := Sample.spoofing Sample.flip1 in
  let r := on_unloaded Sample.all_ok s in
  locked s = false
  /\ outcome r = Done tt
  /\ events r =
       [Diag Info MsgUnloaded; Run (HciSetName "hci0" "home-bt") true;
        Diag Info (MsgSpoofedBluetooth (JStr "home-bt")); Diag Info MsgReverted;
        UiRemove].
Proof.
  cbv zeta.
  pose proof (unload_reverts_outside_the_lock Sample.all_ok
                (Sample.spoofing Sample.flip1)) as (_ & H & _).
  destruct (H eq_refl) as (Ho & _ & Hev).
  split; [reflexivity|]. split; [exact Ho|]. rewrite Hev. reflexivity.
Defined.

(** X6.  A request whose action is "revert" is the revert and nothing
    else: it does not take the lock, so it runs even while the lock is
    held, and it is answered with status "success" whatever the device
    operations did. *)
Theorem revert_request_always_succeeds
    (env : Env) (kv : list (string * Json)) (s : Store) :
  lookup "action" kv = Some (JStr "revert") ->
  on_webhook_post env (Some (JObj kv)) s =
    (Done StatusSuccess, store (_revert_spoof env s),
     events (_revert_spoof env s)).
Proof.
  intros Ha.
  unfold on_webhook_post, try_except, py_in, py_getitem, bind, ret.
  cbn. rewrite Ha. cbn.
  change (String.eqb "revert" "revert") with true. cbn.
  destruct (revert_total env s) as (s1 & ev1 & E & _).
  rewrite E. cbn. now rewrite !app_nil_r.
Qed.

(** A revert request while the lock is held and the address
    restoration fails: answered with "success", the spoof stays. *)
Lemma revert_request_always_succeeds_witness :
  let s := with_locked true (Sample.spoofing Sample.unitA) in
  let r := on_webhook_post (Sample.fails_at 7)
             (Some (JObj [("action", JStr "revert")])) s in
  lookup "action" [("action", JStr "revert")] = Some (JStr "revert")
  /\ outcome r = Done StatusSuccess
  /\ _current_spoof (self (store r)) = Some Sample.unitA.
Proof.
  cbv zeta.
  rewrite (revert_request_always_succeeds (Sample.fails_at 7)
             [("action", JStr "revert")]
             (with_locked true (Sample.spoofing Sample.unitA)) eq_refl).
  repeat split.
Defined.

#[local] Arguments apply : simpl never.
#[local] Arguments apply_and_record : simpl never.

(** Whether the bookkeeping after [apply] returns, under the lock: it
    waits for the lock exactly when [apply] succeeded and a log file is
    configured. *)
Lemma apply_and_record_outcome env new_spoof s :
  locked s = true ->
  outcome (apply_and_record env new_spoof s) =
    match outcome (apply env new_spoof s) with
    | Done true =>
        if String.eqb (log_file (options (self s))) "" then Done tt
        else Blocked
    | _ => Done tt
    end.
Proof.
  intros H. unfold apply_and_record, bind.
  destruct (apply_spec env new_spoof s) as (b & s' & ev & E & Hs & Hl & _).
  rewrite E. unfold outcome. cbn [fst snd].
  destruct b; [|reflexivity].
  unfold modify. cbn [fst snd].
  unfold _log_spoof, bind, get, try_except, with_lock. cbn.
  rewrite Hs. destruct (String.eqb (log_file (options (self s))) ""); cbn.
  - reflexivity.
  - now rewrite Hl, H.
Qed.

(** X7.  A "spoof" request that carries a "type" and a "name", with the
    lock free: the endpoint reverts, then applies the record exactly as
    the request gave it, and runs no other device operation.  The
    record becomes the active spoof when the apply succeeds; when it
    fails the active spoof is what the revert left.  When the apply
    succeeds and a log file is configured the request is never
    answered: [_log_spoof] waits for the lock the endpoint holds. *)
Theorem spoof_request_reverts_then_applies
    (env : Env) (kv : list (string * Json)) (t n : Json) (s : Store) :
  locked s = false ->
  lookup "action" kv = Some (JStr "spoof") ->
  lookup "type" kv = Some t ->
  lookup "name" kv = Some n ->
  let r := on_webhook_post env (Some (JObj kv)) s in
  let rv := _revert_spoof env (with_locked true s) in
  let ra := apply env (mkSpoof t n) (store rv) in
  (exists tail,
     events r = events rv ++ events ra ++ tail /\ driver_calls tail = [])
  /\ (outcome ra = Done true ->
      _current_spoof (self (store r)) = Some (mkSpoof t n))
  /\ (outcome ra = Done false ->
      _current_spoof (self (store r)) = _current_spoof (self (store rv)))
  /\ (outcome ra = Done true ->
      log_file (options (self s)) <> "" ->
      outcome r = Blocked).
Proof.
  intros Hl Ha Ht Hn r rv ra. subst r.
  pose proof (revert_result env (with_locked true s)) as R. cbv zeta in R.
  fold rv in R. destruct R as (Ro & Rl & _ & _ & _ & Ropt & _).
  pose proof (apply_and_record_locked env (mkSpoof t n) (store rv) Rl)
    as (o & E & _).
  pose proof (apply_and_record_outcome env (mkSpoof t n) (store rv) Rl) as Eo.
  rewrite E in Eo. unfold outcome at 1 in Eo. cbn [fst] in Eo.
  fold ra in E, Eo. rewrite Ropt in Eo. cbn [self with_locked] in Eo.
  destruct (apply_spec env (mkSpoof t n) (store rv))
    as (b & s2 & ev2 & Ea & Hs2 & _).
  fold ra in Ea.
  unfold on_webhook_post, try_except, py_in, py_getitem, bind, ret, with_lock.
  cbn. rewrite Ha. cbn.
  change (String.eqb "spoof" "revert") with false.
  change (String.eqb "spoof" "spoof") with true. cbn.
  rewrite Ht, Hn. cbn. rewrite Hl. fold rv.
  destruct rv as [[o1 s1] ev1] eqn:Erv.
  unfold outcome, store, events in *. cbn [fst snd] in *. subst o1.
  rewrite E. rewrite Ea in *. cbn [fst snd] in *.
  destruct b.
  - (* the apply succeeded *)
    destruct (String.eqb (log_file (options (self s))) "") eqn:Hlog;
      subst o; cbn.
    + destruct (update_ui_spec
                  (with_locked false
                     (with_self (set_current_spoof (Some (mkSpoof t n))) s2)))
        as (o & s' & ev & Eu & Hs' & Hev).
      cbn in Eu. rewrite Eu.
      assert (driver_calls ev = []) as Hd
        by (destruct Hev as [-> | [d ->]]; reflexivity).
      apply String.eqb_eq in Hlog.
      destruct o; cbn; rewrite Hs'; cbn.
      all: repeat rewrite <- app_assoc; cbn [app].
      all: split; [eexists; split; [reflexivity|]|].
      all: try (repeat split; try discriminate; auto;
                intros; congruence).
      all: unfold driver_calls in *; rewrite ?filter_app; cbn [filter is_run app];
        rewrite ?Hd; reflexivity.
    + repeat rewrite <- app_assoc; cbn [app].
      split; [exists []; split; [now rewrite app_nil_r | reflexivity]|].
      repeat split; try discriminate; auto.
  - (* the apply failed *)
    subst o. cbn.
    destruct (update_ui_spec (with_locked false s2))
      as (o & s' & ev & Eu & Hs' & Hev).
    cbn in Eu. rewrite Eu.
    assert (driver_calls ev = []) as Hd
      by (destruct Hev as [-> | [d ->]]; reflexivity).
    destruct o; cbn; rewrite Hs'; cbn; rewrite Hs2.
    all: repeat rewrite <- app_assoc; cbn [app].
    all: split; [eexists; split; [reflexivity|]|].
    all: try (repeat split; try discriminate; auto;
              intros; congruence).
    all: unfold driver_calls in *; rewrite ?filter_app; cbn [filter is_run app];
      rewrite ?Hd; reflexivity.
Qed.

(** A network-name request with the default options: the apply
    succeeds, the record is active, and the request is never answered. *)
Lemma spoof_request_reverts_then_applies_witness :
  let kv := [("action", JStr "spoof"); ("type", JStr "wifi");
             ("name", JStr "unitA")] in
  let r := on_webhook_post Sample.all_ok (Some (JObj kv)) Sample.idle in
  locked Sample.idle = false
  /\ log_file (options (self Sample.idle)) <> ""
  /\ _current_spoof (self (store r)) = Some Sample.unitA
  /\ outcome r = Blocked.
Proof.
  cbv zeta.
  assert (log_file (options (self Sample.idle)) <> "") as Hf by discriminate.
  pose proof (spoof_request_reverts_then_applies Sample.all_ok
                [("action", JStr "spoof"); ("type", JStr "wifi");
                 ("name", JStr "unitA")] (JStr "wifi") (JStr "unitA")
                Sample.idle eq_refl eq_refl eq_refl eq_refl)
    as (_ & Hact & _ & Hblock).
  split; [reflexivity|]. split; [exact Hf|].
  split; [now apply Hact | now apply Hblock].
Defined.

(** X8.  A "spoof" request whose type is not a string and whose name
    is a string, with the lock free and no log file configured: when
    the radio name is set, the record is stored as the active spoof as
    given, but the request is answered with status "error", because the
    display update raises on the type; and so does every display update
    from then on. *)
Theorem non_string_type_is_applied_and_answered_with_error
    (env : Env) (kv : list (string * Json)) (t : Json) (n : string)
    (s : Store) :
  locked s = false ->
  log_file (options (self s)) = "" ->
  lookup "action" kv = Some (JStr "spoof") ->
  lookup "type" kv = Some t ->
  (forall x, t <> JStr x) ->
  lookup "name" kv = Some (JStr n) ->
  ok env (tick (store (_revert_spoof env (with_locked true s)))) = true ->
  let r := on_webhook_post env (Some (JObj kv)) s in
  outcome r = Done (StatusError AttributeError)
  /\ _current_spoof (self (store r)) = Some (mkSpoof t (JStr n))
  /\ In (Run (HciSetName (bluetooth_interface (options (self s))) n) true)
        (events r)
  /\ outcome (on_ui_update (store r)) = Raised AttributeError.
Proof.
  intros Hl Hlog Ha Ht Hns Hn Hok r. subst r.
  pose proof (revert_result env (with_locked true s)) as R. cbv zeta in R.
  destruct R as (Ro & Rl & _ & _ & _ & Ropt & _).
  destruct (_revert_spoof env (with_locked true s)) as [[o1 s1] ev1] eqn:Erv.
  unfold outcome, store, events in *. cbn [fst snd] in *. subst o1.
  assert (py_eq_str t "wifi" = false) as Hw
    by (destruct t; try reflexivity; now contradiction (Hns s0)).
  unfold on_webhook_post, try_except, py_in, py_getitem, bind, ret, with_lock,
    apply_and_record, apply.
  cbn. rewrite Ha. cbn.
  change (String.eqb "spoof" "revert") with false.
  change (String.eqb "spoof" "spoof") with true. cbn.
  rewrite Ht, Hn. cbn. rewrite Hl, Erv. cbn. rewrite Hw.
  unfold _spoof_bluetooth, try_except, bind, get, run. cbn.
  rewrite Ropt, Hok. cbn.
  unfold modify, emit, ret, _log_spoof, bind, get. cbn.
  rewrite Ropt. cbn. rewrite Hlog.
  change (String.eqb "" "") with true. cbn.
  unfold on_ui_update, _update_ui, with_lock, bind, get, slice20,
    title_of, ret, raise. cbn.
  destruct t; try (now contradiction (Hns s0)); cbn.
  all: repeat split; rewrite ?in_app_iff; cbn; tauto.
Qed.

(** The request [{"action": "spoof", "type": 5, "name": "flip1"}]. *)
Lemma non_string_type_is_applied_and_answered_with_error_witness :
  let kv := [("action", JStr "spoof"); ("type", JNum 5);
             ("name", JStr "flip1")] in
  let r := on_webhook_post Sample.all_ok (Some (JObj kv)) Sample.idle_no_log in
  outcome r = Done (StatusError AttributeError)
  /\ _current_spoof (self (store r)) = Some (mkSpoof (JNum 5) (JStr "flip1")).
Proof.
  cbv zeta.
  assert (forall x, JNum 5 <> JStr x) as Hns by (intros x; discriminate).
  pose proof (non_string_type_is_applied_and_answered_with_error
                Sample.all_ok
                [("action", JStr "spoof"); ("type", JNum 5);
                 ("name", JStr "flip1")] (JNum 5) "flip1" Sample.idle_no_log
                eq_refl eq_refl eq_refl eq_refl Hns eq_refl eq_refl)
    as (H1 & H2 & _).
  split; assumption.
Defined.

(** ** The display *)

Lemma take_cons n c s :
  PyStr.take (S n) (String c s) = String c (PyStr.take n s).
Proof. reflexivity. Qed.

Lemma take_zero s : PyStr.take 0 s = "".
Proof. now destruct s. Qed.

Lemma take_empty n : PyStr.take n "" = "".
Proof. now destruct n. Qed.

Lemma take_length n s : String.length (PyStr.take n s) <= n.
Proof.
  revert s. induction n as [|n IH]; intros [|c s];
    rewrite ?take_zero, ?take_empty, ?take_cons; cbn [String.length]; try lia.
  specialize (IH s). lia.
Qed.

Lemma take_length_min n s :
  String.length (PyStr.take n s) = Nat.min n (String.length s).
Proof.
  revert s. induction n as [|n IH]; intros [|c s];
    rewrite ?take_zero, ?take_empty, ?take_cons; cbn [String.length];
    try reflexivity.
  cbn [Nat.min]. now rewrite IH.
Qed.

Lemma take_short n s : String.length s <= n -> PyStr.take n s = s.
Proof.
  revert s. induction n as [|n IH]; intros [|c s];
    rewrite ?take_zero, ?take_empty, ?take_cons; cbn [String.length];
    intros H; try reflexivity; try lia.
  f_equal. apply IH. lia.
Qed.

Lemma take_prefix n s : prefix (PyStr.take n s) s = true.
Proof.
  revert s. induction n as [|n IH]; intros [|c s];
    rewrite ?take_zero, ?take_empty, ?take_cons; cbn [prefix];
    try reflexivity.
  destruct (ascii_dec c c) as [_|Hc]; [apply IH | now contradiction Hc].
Qed.

(** X9.  [_update_ui] with the lock free returns with the store exactly
    as it was.  Without an active spoof it shows "None"; for an active
    spoof whose type and name are ASCII strings it shows the type with
    each word capitalised, as [PyStr.title] has it, and the name cut to
    its first 20 characters (the whole name when it is no longer than
    that).  For an active spoof whose type is not a string it raises,
    shows nothing and still releases the lock. *)
Theorem display_shows_cut_name_and_titled_type (s : Store) :
  locked s = false ->
  (_current_spoof (self s) = None ->
   _update_ui s = (Done tt, s, [Ui ShowNone]))
  /\ (forall t n,
        _current_spoof (self s) = Some (mkSpoof (JStr t) (JStr n)) ->
        ascii_text t = true ->
        ascii_text n = true ->
        exists shown,
          _update_ui s =
            (Done tt, s, [Ui (ShowSpoof (JStr shown) (PyStr.title t))])
          /\ prefix shown n = true
          /\ String.length shown <= 20
          /\ (String.length n <= 20 -> shown = n)
          /\ String.length shown = Nat.min 20 (String.length n))
  /\ (forall t n,
        _current_spoof (self s) = Some (mkSpoof t n) ->
        (forall x, t <> JStr x) ->
        exists e, _update_ui s = (Raised e, s, [])).
Proof.
  intros Hl. destruct s as [p l k d]. cbn in Hl. subst l.
  unfold _update_ui, with_lock, bind, get, emit, ret, slice20, title_of, raise.
  cbn. repeat split.
  - intros ->. reflexivity.
  - intros t n -> _ _. cbn. exists (PyStr.take 20 n).
    split; [reflexivity|]. split; [apply take_prefix|].
    split; [apply take_length|]. split; [apply take_short|].
    apply take_length_min.
  - intros t n -> Hns. cbn.
    destruct n; cbn; try (eexists; reflexivity).
    all: destruct t; cbn; try (eexists; reflexivity).
    all: match goal with
         | H : forall x, JStr ?y <> JStr x |- _ => now contradiction (H y)
         end.
Qed.

(** The plugin without a log file after it served a request for the
    radio name "a-flipper-with-a-long-name". *)
Lemma display_shows_cut_name_and_titled_type_witness :
  let body := JObj [("action", JStr "spoof"); ("type", JStr "bluetooth");
                    ("name", JStr "a-flipper-with-a-long-name")] in
  let s := store (on_webhook_post Sample.all_ok (Some body)
                    Sample.idle_no_log) in
  locked s = false
  /\ ascii_text "bluetooth" = true
  /\ ascii_text "a-flipper-with-a-long-name" = true
  /\ exists shown,
       _update_ui s = (Done tt, s, [Ui (ShowSpoof (JStr shown) "Bluetooth")])
       /\ prefix shown "a-flipper-with-a-long-name" = true
       /\ String.length shown = 20.
Proof.
  cbv zeta.
  pose proof (display_shows_cut_name_and_titled_type
                (store (on_webhook_post Sample.all_ok
                          (Some (JObj [("action", JStr "spoof");
                                       ("type", JStr "bluetooth");
                                       ("name",
                                        JStr "a-flipper-with-a-long-name")]))
                          Sample.idle_no_log)) eq_refl)
    as (_ & H & _).
  destruct (H "bluetooth" "a-flipper-with-a-long-name" eq_refl eq_refl eq_refl)
    as (shown & E & Hp & _ & _ & Hlen).
  split; [reflexivity|]. split; [reflexivity|]. split; [reflexivity|].
  exists shown. split; [exact E|]. split; [exact Hp | exact Hlen].
Defined.

(** ** Applying, step by step *)

(** The cases of a membership in an explicit list; those that equate
    different events are closed. *)
Ltac cases_in H :=
  cbn in H;
  repeat match type of H with
         | _ \/ _ => destruct H as [H | H]
         end;
  try discriminate H; try contradiction H.

Ltac all_succeeded :=
  repeat (constructor; [eexists; reflexivity|]); constructor.

(** X10.  [_spoof_wifi] stops at the first device operation that
    fails: everything before it succeeded, and after it comes only the
    message of the failed spoof.  So when setting the hardware address
    fails, the interface, which was taken down for it, is not brought
    up again and the access point is not restarted. *)
Theorem spoof_wifi_stops_at_first_failure
    (env : Env) (ssid : Json) (s : Store) :
  let ev := events (_spoof_wifi env ssid s) in
  (forall c,
     In (Run c false) ev ->
     exists pre,
       ev = pre ++ [Run c false; Diag Error (MsgSpoofWifiFailed (Failed c))]
       /\ Forall (fun e => exists c', e = Run c' true) pre)
  /\ (forall i m,
        In (Run (IfHwEther i m) false) ev ->
        In (Run (IfDown i) true) ev
        /\ filter is_if_up ev = []
        /\ filter is_restart ev = []).
Proof.
  unfold _spoof_wifi. exec.
  all: unfold events; cbn [snd]; split.
  all: try (intros c Hc; cases_in Hc;
            [injection Hc as <-;
             match goal with
             | |- exists pre, ?ev = _ /\ _ =>
                 exists (removelast (removelast ev))
             end;
             cbn; split; [reflexivity | all_succeeded]]).
  all: try (intros c Hc; cases_in Hc; fail).
  all: intros i m Hc; cases_in Hc.
  all: injection Hc as <- <-; cbn; repeat split; tauto.
Qed.

(** Setting the address fails (operation 4): the interface was taken
    down and is not brought up. *)
Lemma spoof_wifi_stops_at_first_failure_witness :
  let ev := events (_spoof_wifi (Sample.fails_at 4) (JStr "unitA") Sample.idle) in
  In (Run (IfDown "wlan0") true) ev
  /\ filter is_if_up ev = []
  /\ filter is_restart ev = [].
Proof.
  cbv zeta.
  pose proof (spoof_wifi_stops_at_first_failure (Sample.fails_at 4)
                (JStr "unitA") Sample.idle) as (_ & H).
  apply (H "wlan0" "00:00:00:00:00:00").
  vm_compute. tauto.
Defined.

Lemma hex_digit_ok k : k < 16 -> is_hex_or_colon (PyStr.hex_digit k) = true.
Proof.
  intros H.
  do 16 (destruct k as [|k]; [reflexivity|]). lia.
Qed.

Lemma hex2_ok n :
  n < 256 ->
  exists a b,
    PyStr.hex2 n = String a (String b "")
    /\ is_hex_or_colon a = true /\ is_hex_or_colon b = true.
Proof.
  intros H. unfold PyStr.hex2. do 2 eexists. split; [reflexivity|].
  split; apply hex_digit_ok.
  - apply Nat.Div0.div_lt_upper_bound. lia.
  - apply Nat.mod_upper_bound. lia.
Qed.

(** X11.  The hardware address [_spoof_wifi] makes up takes six draws
    of the random generator and is always 17 characters long, each a
    lower-case hexadecimal digit or a colon. *)
Theorem random_mac_is_six_hex_groups (env : Env) (s : Store) :
  exists mac,
    random_mac env s
      = (Done mac, mkStore (self s) (locked s) (tick s) (6 + draws s), [])
    /\ String.length mac = 17
    /\ forallb is_hex_or_colon (list_ascii_of_string mac) = true.
Proof.
  unfold random_mac, bind, randint256, ret. cbn.
  eexists. split; [reflexivity|].
  unfold PyStr.join. cbn [map].
  repeat match goal with
         | |- context [PyStr.hex2 (?x mod 256)] =>
             let a := fresh "a" in
             let b := fresh "b" in
             let E := fresh "E" in
             let Ha := fresh "Ha" in
             let Hb := fresh "Hb" in
             destruct (hex2_ok (x mod 256)) as (a & b & E & Ha & Hb);
             [apply Nat.mod_upper_bound; discriminate|];
             rewrite E; clear E
         end.
  cbn. split; [reflexivity|].
  repeat match goal with H : is_hex_or_colon _ = true |- _ =>
           rewrite H; clear H end.
  reflexivity.
Qed.

(** ** The display options *)



(** ** No device failure goes unreported *)

Lemma promptly_logged_app ev1 ev2 :
  promptly_logged ev1 = true -> promptly_logged ev2 = true ->
  promptly_logged (ev1 ++ ev2) = true.
Proof.
  revert ev2.
  induction ev1 as [|e rest IH]; intros ev2 H1 H2; [exact H2|].
  destruct e as [c [|] | l m | en | b | d |]; cbn in *;
    try (apply IH; assumption).
  destruct rest as [|[c' b' | [| |] m | en | b | d |] rest']; cbn in *;
    try discriminate.
  apply (IH ev2 H1 H2).
Qed.

Lemma promptly_logged_after_failure pre c m rest :
  promptly_logged pre = true -> promptly_logged rest = true ->
  promptly_logged ((pre ++ [Run c false]) ++ Diag Error m :: rest) = true.
Proof.
  intros H1 H2. rewrite <- app_assoc. apply promptly_logged_app; assumption.
Qed.

Lemma tidy_is_tidy_until_raise {A} (m : M A) : tidy m -> tidy_until_raise m.
Proof. intros H s. left. apply H. Qed.

Lemma tidy_ret {A} (a : A) : tidy (ret a).
Proof. intros s. reflexivity. Qed.

Lemma tidy_raise {A} e : tidy (@raise A e).
Proof. intros s. reflexivity. Qed.

Lemma tidy_emit e : is_run e = false -> tidy (emit e).
Proof. intros H s. destruct e; try reflexivity. discriminate. Qed.

Lemma tidy_get : tidy get.
Proof. intros s. reflexivity. Qed.

Lemma tidy_modify f : tidy (modify f).
Proof. intros s. reflexivity. Qed.

Lemma tidy_randint env : tidy (randint256 env).
Proof. intros s. reflexivity. Qed.

Lemma tidy_choice env {A} (d : A) l : tidy (choice env d l).
Proof. intros s. reflexivity. Qed.

Lemma tidy_gps env : tidy (gps_get_current env).
Proof. intros s. unfold gps_get_current. now destruct (ok env (tick s)). Qed.

Lemma tidy_strftime env : tidy (strftime env).
Proof. intros s. reflexivity. Qed.

Lemma tidy_append env e : tidy (append_line env e).
Proof. intros s. unfold append_line. now destruct (ok env (tick s)). Qed.

Lemma until_raise_run env c : tidy_until_raise (run env c).
Proof.
  intros s. unfold run. destruct (ok env (tick s)).
  - now left.
  - right. exists [], c, (Failed c). repeat split.
Qed.

Lemma until_raise_read env c : tidy_until_raise (read env c).
Proof.
  intros s. unfold read. destruct (ok env (tick s)).
  - now left.
  - right. exists [], c, (Failed c). repeat split.
Qed.

Lemma tidy_bind {A B} (m : M A) (k : A -> M B) :
  tidy m -> (forall a, tidy (k a)) -> tidy (bind m k).
Proof.
  intros Hm Hk s. unfold bind. specialize (Hm s).
  destruct (m s) as [[[a | e |] s1] ev1];
    unfold events in *; cbn [fst snd] in *; try assumption.
  specialize (Hk a s1). destruct (k a s1) as [[o2 s2] ev2].
  unfold events in *; cbn [fst snd] in *.
  now apply promptly_logged_app.
Qed.

Lemma until_raise_bind {A B} (m : M A) (k : A -> M B) :
  tidy_until_raise m -> (forall a, tidy_until_raise (k a)) ->
  tidy_until_raise (bind m k).
Proof.
  intros Hm Hk s. unfold bind. specialize (Hm s).
  destruct (m s) as [[[a | e |] s1] ev1];
    unfold outcome, events in *; cbn [fst snd] in *.
  - destruct Hm as [Hm | (pre & c & e & _ & _ & [=])].
    specialize (Hk a s1). destruct (k a s1) as [[o2 s2] ev2].
    unfold outcome, events in *; cbn [fst snd] in *.
    destruct Hk as [Hk | (pre & c & e & E & Hp & Ho)].
    + left. now apply promptly_logged_app.
    + right. exists (ev1 ++ pre), c, e. subst ev2.
      rewrite app_assoc. repeat split; auto.
      now apply promptly_logged_app.
  - destruct Hm as [Hm | (pre & c & e' & E & Hp & _)]; [now left|].
    right. now exists pre, c, e.
  - destruct Hm as [Hm | (pre & c & e & _ & _ & [=])]. now left.
Qed.

Lemma tidy_try {A} (m : M A) (h : Exn -> M A) :
  tidy_until_raise m -> logs_first h -> tidy (try_except m h).
Proof.
  intros Hm Hh s. unfold try_except. specialize (Hm s).
  destruct (m s) as [[[a | e |] s1] ev1];
    unfold outcome, events in *; cbn [fst snd] in *.
  - now destruct Hm as [Hm | (pre & c & e & _ & _ & [=])].
  - destruct (Hh e s1) as (msg & rest & E & Hr).
    destruct (h e s1) as [[o2 s2] ev2].
    unfold events in *; cbn [fst snd] in *. subst ev2.
    destruct Hm as [Hm | (pre & c & e' & -> & Hp & _)].
    + now apply promptly_logged_app.
    + now apply promptly_logged_after_failure.
  - now destruct Hm as [Hm | (pre & c & e & _ & _ & [=])].
Qed.

Lemma tidy_try_quiet {A} (m : M A) (h : Exn -> M A) :
  tidy m -> (forall e, tidy (h e)) -> tidy (try_except m h).
Proof.
  intros Hm Hh s. unfold try_except. specialize (Hm s).
  destruct (m s) as [[[a | e |] s1] ev1];
    unfold events in *; cbn [fst snd] in *; try assumption.
  specialize (Hh e s1). destruct (h e s1) as [[o2 s2] ev2].
  unfold events in *; cbn [fst snd] in *.
  now apply promptly_logged_app.
Qed.

Lemma tidy_with_lock {A} (m : M A) : tidy m -> tidy (with_lock m).
Proof.
  intros Hm s. unfold with_lock. destruct (locked s); [reflexivity|].
  specialize (Hm (with_locked true s)).
  now destruct (m (with_locked true s)) as [[[a | e |] s1] ev1].
Qed.

Create HintDb tidy discriminated.
#[local] Hint Resolve tidy_ret tidy_raise tidy_get tidy_modify tidy_randint
  tidy_choice tidy_gps tidy_strftime tidy_append : tidy.

Ltac logs_first_tac :=
  intros ? ?; do 2 eexists; split; [reflexivity | reflexivity].

Ltac tidy_step :=
  cbv beta;
  match goal with
  | |- tidy (bind _ _) => apply tidy_bind; [|intros ?]
  | |- tidy (try_except _ _) =>
      first [ apply tidy_try; [|solve [logs_first_tac]]
            | apply tidy_try_quiet; [|intros ?] ]
  | |- tidy (with_lock _) => apply tidy_with_lock
  | |- tidy (emit _) => apply tidy_emit; reflexivity
  | |- tidy (if ?b then _ else _) => destruct b
  | |- tidy (match ?x with _ => _ end) => destruct x
  | |- tidy _ => solve [auto with tidy]
  | |- tidy_until_raise (bind _ _) => apply until_raise_bind; [|intros ?]
  | |- tidy_until_raise (run _ _) => apply until_raise_run
  | |- tidy_until_raise (read _ _) => apply until_raise_read
  | |- tidy_until_raise (if ?b then _ else _) => destruct b
  | |- tidy_until_raise (match ?x with _ => _ end) => destruct x
  | |- tidy_until_raise _ => apply tidy_is_tidy_until_raise
  end.

Ltac tidy_all := repeat tidy_step.

Lemma tidy_spoof_wifi env ssid : tidy (_spoof_wifi env ssid).
Proof. unfold _spoof_wifi, set_mac, random_mac. tidy_all. Qed.

Lemma tidy_spoof_bluetooth env name : tidy (_spoof_bluetooth env name).
Proof. unfold _spoof_bluetooth. tidy_all. Qed.

#[local] Hint Resolve tidy_spoof_wifi tidy_spoof_bluetooth : tidy.

Lemma tidy_revert_spoof env : tidy (_revert_spoof env).
Proof. unfold _revert_spoof, set_mac. tidy_all. Qed.

Lemma tidy_get_gps_data env : tidy (_get_gps_data env).
Proof. unfold _get_gps_data. tidy_all. Qed.

#[local] Hint Resolve tidy_revert_spoof tidy_get_gps_data : tidy.

Lemma tidy_log_spoof env : tidy (_log_spoof env).
Proof. unfold _log_spoof. tidy_all. Qed.

Lemma tidy_update_ui : tidy _update_ui.
Proof. unfold _update_ui, slice20, title_of. tidy_all. Qed.

#[local] Hint Resolve tidy_log_spoof tidy_update_ui : tidy.

Lemma tidy_apply_and_record env r : tidy (apply_and_record env r).
Proof. unfold apply_and_record, apply. tidy_all. Qed.

#[local] Hint Resolve tidy_apply_and_record : tidy.

Lemma tidy_on_wifi_update env now detector :
  tidy (on_wifi_update env now detector).
Proof. unfold on_wifi_update. tidy_all. Qed.

Lemma tidy_on_webhook_post env body : tidy (on_webhook_post env body).
Proof. unfold on_webhook_post, py_in, py_getitem. tidy_all. Qed.

Lemma tidy_on_unloaded env : tidy (on_unloaded env).
Proof. unfold on_unloaded. tidy_all. Qed.

Lemma tidy_call env c s : promptly_logged (snd (call env c s)) = true.
Proof.
  destruct c; cbn [call snd].
  - apply tidy_on_wifi_update.
  - apply tidy_on_webhook_post.
  - apply tidy_update_ui.
  - apply tidy_on_unloaded.
Qed.

(** X13.  In any sequence of polls, control requests, display updates
    and unloads, every device operation that fails is followed at once
    by an error on the diagnostic channel: no failure of the device
    goes unreported. *)
Theorem device_failures_are_reported_at_once
    (env : Env) (cs : list Call) (s : Store) :
  promptly_logged (snd (calls env cs s)) = true.
Proof.
  revert s. induction cs as [|c rest IH]; intros s; cbn [calls].
  - reflexivity.
  - pose proof (tidy_call env c s) as Hc.
    destruct (call env c s) as [s1 ev1]. specialize (IH s1).
    destruct (calls env rest s1) as [s2 ev2]. cbn [snd] in *.
    now apply promptly_logged_app.
Qed.

(** ** Reading the network name *)















(** ** The rate limit *)

Lemma last_ret {A} (a : A) : keeps_last_spoof (ret a).
Proof. intros s. reflexivity. Qed.

Lemma last_raise {A} e : keeps_last_spoof (@raise A e).
Proof. intros s. reflexivity. Qed.

Lemma last_emit e : keeps_last_spoof (emit e).
Proof. intros s. reflexivity. Qed.

Lemma last_get : keeps_last_spoof get.
Proof. intros s. reflexivity. Qed.

Lemma last_set_current v : keeps_last_spoof (modify (set_current_spoof v)).
Proof. intros s. reflexivity. Qed.

Lemma last_run env c : keeps_last_spoof (run env c).
Proof. intros s. unfold run. now destruct (ok env (tick s)). Qed.

Lemma last_read env c : keeps_last_spoof (read env c).
Proof. intros s. unfold read. now destruct (ok env (tick s)). Qed.

Lemma last_randint env : keeps_last_spoof (randint256 env).
Proof. intros s. reflexivity. Qed.

Lemma last_choice env {A} (d : A) l : keeps_last_spoof (choice env d l).
Proof. intros s. reflexivity. Qed.

Lemma last_gps env : keeps_last_spoof (gps_get_current env).
Proof.
  intros s. unfold gps_get_current. now destruct (ok env (tick s)).
Qed.

Lemma last_strftime env : keeps_last_spoof (strftime env).
Proof. intros s. reflexivity. Qed.

Lemma last_append env e : keeps_last_spoof (append_line env e).
Proof. intros s. unfold append_line. now destruct (ok env (tick s)). Qed.

Lemma last_bind {A B} (m : M A) (k : A -> M B) :
  keeps_last_spoof m -> (forall a, keeps_last_spoof (k a)) ->
  keeps_last_spoof (bind m k).
Proof.
  intros Hm Hk s. unfold bind. specialize (Hm s).
  destruct (m s) as [[[a | e |] s1] ev1];
    unfold store in *; cbn [fst snd] in *; try exact Hm.
  specialize (Hk a s1). destruct (k a s1) as [[o2 s2] ev2].
  unfold store in *; cbn [fst snd] in *. congruence.
Qed.

Lemma last_try {A} (m : M A) (h : Exn -> M A) :
  keeps_last_spoof m -> (forall e, keeps_last_spoof (h e)) ->
  keeps_last_spoof (try_except m h).
Proof.
  intros Hm Hh s. unfold try_except. specialize (Hm s).
  destruct (m s) as [[[a | e |] s1] ev1];
    unfold store in *; cbn [fst snd] in *; try exact Hm.
  specialize (Hh e s1). destruct (h e s1) as [[o2 s2] ev2].
  unfold store in *; cbn [fst snd] in *. congruence.
Qed.

Lemma last_with_lock {A} (m : M A) :
  keeps_last_spoof m -> keeps_last_spoof (with_lock m).
Proof.
  intros Hm s. unfold with_lock. destruct (locked s); [reflexivity|].
  specialize (Hm (with_locked true s)).
  destruct (m (with_locked true s)) as [[[a | e |] s1] ev1]; exact Hm.
Qed.

Create HintDb last discriminated.
#[local] Hint Resolve last_ret last_raise last_emit last_get last_set_current
  last_run last_read last_randint last_choice last_gps last_strftime
  last_append : last.

Ltac last_step :=
  cbv beta;
  match goal with
  | |- keeps_last_spoof (bind _ _) => apply last_bind; [|intros ?]
  | |- keeps_last_spoof (try_except _ _) => apply last_try; [|intros ?]
  | |- keeps_last_spoof (with_lock _) => apply last_with_lock
  | |- keeps_last_spoof (if ?b then _ else _) => destruct b
  | |- keeps_last_spoof (match ?x with _ => _ end) => destruct x
  | |- keeps_last_spoof _ => solve [auto with last]
  end.

Ltac last_all := repeat last_step.

Lemma last_spoof_wifi env ssid : keeps_last_spoof (_spoof_wifi env ssid).
Proof. unfold _spoof_wifi, set_mac, random_mac. last_all. Qed.

Lemma last_spoof_bluetooth env name :
  keeps_last_spoof (_spoof_bluetooth env name).
Proof. unfold _spoof_bluetooth. last_all. Qed.

#[local] Hint Resolve last_spoof_wifi last_spoof_bluetooth : last.

Lemma last_revert_spoof env : keeps_last_spoof (_revert_spoof env).
Proof. unfold _revert_spoof, set_mac. last_all. Qed.

Lemma last_get_gps_data env : keeps_last_spoof (_get_gps_data env).
Proof. unfold _get_gps_data. last_all. Qed.

#[local] Hint Resolve last_revert_spoof last_get_gps_data : last.

Lemma last_log_spoof env : keeps_last_spoof (_log_spoof env).
Proof. unfold _log_spoof. last_all. Qed.

Lemma last_update_ui : keeps_last_spoof _update_ui.
Proof. unfold _update_ui, slice20, title_of. last_all. Qed.

#[local] Hint Resolve last_log_spoof last_update_ui : last.

Lemma last_apply_and_record env r : keeps_last_spoof (apply_and_record env r).
Proof. unfold apply_and_record, apply. last_all. Qed.

#[local] Hint Resolve last_apply_and_record : last.

Lemma last_on_webhook_post env body :
  keeps_last_spoof (on_webhook_post env body).
Proof. unfold on_webhook_post, py_in, py_getitem. last_all. Qed.

Lemma last_on_unloaded env : keeps_last_spoof (on_unloaded env).
Proof. unfold on_unloaded. last_all. Qed.

Lemma bind_get {A} (k : Plugin -> M A) s : bind get k s = k (self s) s.
Proof. unfold bind, get. now destruct (k (self s) s) as [[o s1] ev]. Qed.

Lemma store_bind_modify {A} f (k : unit -> M A) s :
  store (bind (modify f) k s) = store (k tt (with_self f s)).
Proof.
  unfold bind, modify. now destruct (k tt (with_self f s)) as [[o s1] ev].
Qed.

(** An accepted poll records its time, whatever it does next. *)
Lemma accepted_poll_records_time env now detector s :
  (check_interval (options (self s)) <= now - _last_spoof (self s))%Q ->
  _last_spoof (self (store (on_wifi_update env now detector s))) = now.
Proof.
  intros Hr. unfold on_wifi_update. rewrite bind_get.
  rewrite (Qltb_false _ _ Hr). rewrite store_bind_modify.
  match goal with
  | |- _last_spoof (self (store (?m ?s'))) = _ =>
      assert (keeps_last_spoof m) as Hk by last_all;
      rewrite (Hk s')
  end.
  reflexivity.
Qed.

Lemma last_calls env cs s :
  Forall (fun c => is_poll c = false) cs ->
  _last_spoof (self (fst (calls env cs s))) = _last_spoof (self s).
Proof.
  intros H. revert s. induction H as [|c rest Hc _ IH]; intros s; cbn [calls].
  - reflexivity.
  - assert (_last_spoof (self (fst (call env c s))) = _last_spoof (self s))
      as Hl.
    { destruct c; cbn [call fst]; try discriminate.
      - apply last_on_webhook_post.
      - apply last_update_ui.
      - apply last_on_unloaded. }
    destruct (call env c s) as [s1 ev1]. specialize (IH s1).
    destruct (calls env rest s1) as [s2 ev2]. cbn [fst] in *. congruence.
Qed.

(** X15.  A poll that passes the rate limit records its time before
    anything else, so the interval runs from it even when it then
    fails or never returns: whatever control requests, display updates
    and unloads follow, a poll that comes less than [check_interval]
    after it is dropped, with no change and no event. *)
Theorem accepted_poll_starts_the_interval
    (env : Env) (now now' : Q) (detector detector' : option Detector)
    (cs : list Call) (s : Store) :
  (check_interval (options (self s)) <= now - _last_spoof (self s))%Q ->
  Forall (fun c => is_poll c = false) cs ->
  (now' - now < check_interval (options (self s)))%Q ->
  let later := fst (calls env cs (store (on_wifi_update env now detector s))) in
  _last_spoof (self later) = now
  /\ on_wifi_update env now' detector' later = (Done tt, later, []).
Proof.
  intros Hr Hcs Hsoon later.
  assert (_last_spoof (self later) = now) as Hlast.
  { subst later. rewrite (last_calls env cs _ Hcs).
    now apply accepted_poll_records_time. }
  assert (options (self later) = options (self s)) as Hopt.
  { subst later.
    pose proof (keeps_on_wifi_update env now detector s) as (H1 & _).
    pose proof (keeps_call env (CallWifiUpdate now detector) s) as _.
    assert (forall cs' s', options (self (fst (calls env cs' s')))
                           = options (self s')) as Hall.
    { induction cs' as [|c rest IH]; intros s'; cbn [calls]; [reflexivity|].
      pose proof (keeps_call env c s') as (Hc & _).
      destruct (call env c s') as [s1 ev1]. specialize (IH s1).
      destruct (calls env rest s1) as [s2 ev2]. cbn [fst] in *. congruence. }
    rewrite Hall. exact H1. }
  split; [exact Hlast|].
  unfold on_wifi_update. rewrite bind_get, Hlast, Hopt.
  now rewrite (Qltb_true _ _ Hsoon).
Qed.

(** A poll at time 100 whose apply fails, then a revert request, then a
    poll at time 130 with the default interval of 60. *)
Lemma accepted_poll_starts_the_interval_witness :
  let r1 := on_wifi_update (Sample.fails_at 0) 100%Q
              (Some Sample.sees_unitA) Sample.idle in
  let later :=
    fst (calls (Sample.fails_at 0)
           [CallWebhookPost (Some (JObj [("action", JStr "revert")]))]
           (store r1)) in
  (130 - 100 < check_interval (options (self Sample.idle)))%Q
  /\ _current_spoof (self (store r1)) = None
  /\ on_wifi_update (Sample.fails_at 0) 130%Q (Some Sample.sees_unitA) later
     = (Done tt, later, []).
Proof.
  cbv zeta.
  assert (check_interval (options (self Sample.idle))
          <= 100 - _last_spoof (self Sample.idle))%Q as Hr
    by (vm_compute; discriminate).
  assert (130 - 100 < check_interval (options (self Sample.idle)))%Q as Hsoon
    by reflexivity.
  pose proof (accepted_poll_starts_the_interval (Sample.fails_at 0) 100%Q 130%Q
                (Some Sample.sees_unitA) (Some Sample.sees_unitA)
                [CallWebhookPost (Some (JObj [("action", JStr "revert")]))]
                Sample.idle Hr) as H.
  destruct H as (_ & H); [repeat constructor | exact Hsoon |].
  split; [exact Hsoon|]. split; [reflexivity | exact H].
Defined.

(** ** A poll without the detector *)

Lemma update_ui_inactive s :
  locked s = false -> _current_spoof (self s) = None ->
  _update_ui s = (Done tt, s, [Ui ShowNone]).
Proof.
  intros Hl Hc. destruct s as [p l k d]. cbn in Hl, Hc. subst l.
  unfold _update_ui, with_lock, bind, get, emit, ret. cbn. now rewrite Hc.
Qed.

Lemma update_ui_unlocked s :
  locked s = false ->
  outcome (_update_ui s) <> Blocked /\ locked (store (_update_ui s)) = false.
Proof.
  intros Hl. unfold _update_ui, with_lock, bind, get, emit, ret, slice20,
    title_of, raise. rewrite Hl. cbn.
  destruct (_current_spoof (self s)) as [[t n]|]; cbn.
  - destruct n; cbn; try (split; [discriminate | reflexivity]).
    all: destruct t; cbn; split; try discriminate; reflexivity.
  - split; [discriminate | reflexivity].
Qed.

(** X16.  A poll that passes the rate limit with the lock free and
    finds no detector always comes back, with the lock free: it warns
    that the detector is missing, reverts, and updates the display
    outside the lock.  When the revert did not end in its own [except]
    clause the poll returns and the display shows "None". *)
Theorem poll_without_detector_returns (env : Env) (now : Q) (s : Store) :
  (check_interval (options (self s)) <= now - _last_spoof (self s))%Q ->
  locked s = false ->
  let r := on_wifi_update env now None s in
  outcome r <> Blocked
  /\ locked (store r) = false
  /\ (exists rest, events r = Diag Warning MsgNoDetector :: rest)
  /\ (revert_failed (events r) = false ->
      outcome r = Done tt
      /\ exists body, events r = body ++ [Ui ShowNone]).
Proof.
  intros Hr Hl r. subst r.
  rewrite (poll_no_detector_shape env now s Hr).
  pose proof (revert_result env (with_self (set_last_spoof now) s)) as R.
  cbv zeta in R.
  destruct (_revert_spoof env (with_self (set_last_spoof now) s))
    as [[o1 s1] ev1].
  unfold outcome, store, events in *. cbn [fst snd] in *.
  destruct R as (_ & Rl & _ & Rnone & _).
  cbn in Rl. rewrite Hl in Rl.
  destruct (update_ui_unlocked s1 Rl) as [Hnb Hlk].
  unfold outcome, store in Hnb, Hlk.
  split; [exact Hnb|]. split; [exact Hlk|].
  split; [eexists; reflexivity|].
  intros Hf.
  change (Diag Warning MsgNoDetector :: ev1 ++ snd (_update_ui s1))
    with ([Diag Warning MsgNoDetector] ++ ev1 ++ snd (_update_ui s1)) in Hf.
  rewrite !revert_failed_app in Hf.
  apply orb_false_iff in Hf as [_ Hf]. apply orb_false_iff in Hf as [Hf _].
  rewrite (update_ui_inactive s1 Rl (Rnone Hf)). cbn [fst snd].
  split; [reflexivity|].
  exists (Diag Warning MsgNoDetector :: ev1). reflexivity.
Qed.

Lemma poll_without_detector_returns_witness :
  let s := Sample.spoofing Sample.unitA in
  let r := on_wifi_update Sample.all_ok 100%Q None s in
  locked s = false
  /\ outcome r = Done tt
  /\ _current_spoof (self (store r)) = None.
Proof.
  cbv zeta.
  assert (check_interval (options (self (Sample.spoofing Sample.unitA)))
          <= 100 - _last_spoof (self (Sample.spoofing Sample.unitA)))%Q as Hr
    by (vm_compute; discriminate).
  pose proof (poll_without_detector_returns Sample.all_ok 100%Q
                (Sample.spoofing Sample.unitA) Hr eq_refl)
    as (_ & _ & _ & H).
  destruct (H eq_refl) as (Ho & _).
  split; [reflexivity|]. split; [exact Ho | reflexivity].
Defined.

(** ** What a poll can leave active *)

Lemma chosen_in env cands s : cands <> [] -> In (chosen env cands s) cands.
Proof.
  intros H. unfold chosen. apply nth_In.
  apply Nat.mod_upper_bound. now destruct cands.
Qed.

(** X17.  A poll that passes the rate limit with the lock free and
    finds candidates chooses one of them, and the spoof it leaves
    active is either that candidate, with its type and name as strings,
    or the spoof that was active before the poll; it never leaves
    anything else active. *)
Theorem poll_leaves_a_candidate_or_the_old_spoof
    (env : Env) (now : Q) (d : Detector) (s : Store) :
  (check_interval (options (self s)) <= now - _last_spoof (self s))%Q ->
  locked s = false ->
  candidates_of (options (self s)) d <> [] ->
  let c := chosen env (candidates_of (options (self s)) d) s in
  let r := on_wifi_update env now (Some d) s in
  In c (candidates_of (options (self s)) d)
  /\ (_current_spoof (self (store r)) = Some (spoof_of c)
      \/ _current_spoof (self (store r)) = None
      \/ _current_spoof (self (store r)) = _current_spoof (self s)).
Proof.
  intros Hr Hl Hc c r. subst r.
  split; [now apply chosen_in|].
  rewrite (poll_shape env now d s Hr Hl Hc). fold c.
  destruct (spoof_is (_current_spoof (self s)) (fst c) (snd c)).
  - right. right. reflexivity.
  - pose proof (revert_result env (poll_store now s)) as R. cbv zeta in R.
    destruct (_revert_spoof env (poll_store now s)) as [[o1 s1] ev1].
    unfold outcome, store, events in *. cbn [fst snd] in *.
    destruct R as (_ & Rl & _ & Rnone & Rstale & _).
    destruct (apply_and_record_locked env (spoof_of c) s1 Rl) as (o & E & _).
    rewrite E. cbn [fst snd].
    destruct (apply_spec env (spoof_of c) s1) as (b & s2 & ev2 & Ea & Hs & _).
    rewrite Ea. unfold outcome, store. cbn [fst snd].
    destruct b; cbn.
    + left. reflexivity.
    + rewrite Hs. destruct (revert_failed ev1).
      * right. right. now rewrite Rstale.
      * right. left. now apply Rnone.
Qed.

Lemma poll_leaves_a_candidate_or_the_old_spoof_witness :
  let r := on_wifi_update Sample.all_ok 100%Q (Some Sample.sees_flip1)
             Sample.idle in
  locked Sample.idle = false
  /\ candidates_of (options (self Sample.idle)) Sample.sees_flip1
     = [("bluetooth", "flip1")]
  /\ _current_spoof (self (store r)) = Some Sample.flip1.
Proof.
  cbv zeta.
  assert (check_interval (options (self Sample.idle))
          <= 100 - _last_spoof (self Sample.idle))%Q as Hr
    by (vm_compute; discriminate).
  assert (candidates_of (options (self Sample.idle)) Sample.sees_flip1 <> [])
    as Hc by (vm_compute; discriminate).
  pose proof (poll_leaves_a_candidate_or_the_old_spoof Sample.all_ok 100%Q
                Sample.sees_flip1 Sample.idle Hr eq_refl Hc) as (_ & _).
  repeat split.
Defined.

(** ** What the load reads and reports *)

Lemma get_current_ssid_events env s :
  exists v b tail,
    _get_current_ssid env s = (Done v, ticked s, Run ReadHostapdConf b :: tail)
    /\ b = ok env (tick s)
    /\ (tail = [] \/ exists e, tail = [Diag Error (MsgReadSsidFailed e)]).
Proof.
  unfold _get_current_ssid, try_except, bind, read.
  destruct (ok env (tick s)); cbn.
  - destruct (scan_ssid_pure (PyStr.file_lines (out env (tick s))) (ticked s))
      as ([[v|] | e |] & E & Hb); rewrite E; cbn.
    + do 3 eexists. split; [reflexivity|]. split; [reflexivity | now left].
    + do 3 eexists. split; [reflexivity|]. split; [reflexivity | now left].
    + do 3 eexists. split; [reflexivity|]. split; [reflexivity|].
      right. eexists. reflexivity.
    + now contradiction Hb.
  - do 3 eexists. split; [reflexivity|]. split; [reflexivity|].
    right. eexists. reflexivity.
Qed.

Lemma get_current_bt_name_events env s :
  exists v,
    _get_current_bt_name env s
    = (Done v, ticked s,
       [Run (HciGetName (bluetooth_interface (options (self s))))
            (ok env (tick s))]).
Proof.
  unfold _get_current_bt_name, try_except, bind, read, get, item1.
  destruct (ok env (tick s)); cbn.
  - match goal with
    | |- context [nth_error ?l 1] => destruct (nth_error l 1)
    end; cbn; eexists; reflexivity.
  - eexists; reflexivity.
Qed.

Lemma get_current_mac_events env s :
  exists v,
    _get_current_mac env s
    = (Done v, ticked s,
       [Run (Ifconfig (wifi_interface (options (self s)))) (ok env (tick s))]).
Proof.
  unfold _get_current_mac, try_except, bind, read, get.
  destruct (ok env (tick s)); cbn.
  - destruct (scan_mac_pure (PyStr.lines (out env (tick s))) (ticked s))
      as ([v | e |] & E & Hb); rewrite E; cbn;
      try (eexists; reflexivity).
    now contradiction Hb.
  - eexists; reflexivity.
Qed.

(** X18.  The capture of the original identity in [on_loaded] runs
    exactly three device operations, in this order: it reads the
    configuration file, the radio name and the interface.  It never
    raises and never takes the lock.  Only a failure to get the network
    name is reported: when reading the radio name or the interface
    fails, nothing is written to the diagnostic channel about it. *)
Theorem load_reads_three_values_and_reports_one (env : Env) (s : Store) :
  let r := on_loaded env s in
  outcome r = Done tt
  /\ locked (store r) = locked s
  /\ driver_calls (events r)
     = [Run ReadHostapdConf (ok env (tick s));
        Run (HciGetName (bluetooth_interface (options (self s))))
            (ok env (1 + tick s));
        Run (Ifconfig (wifi_interface (options (self s))))
            (ok env (2 + tick s))]
  /\ (forall m, In (Diag Error m) (events r) ->
                exists e, m = MsgReadSsidFailed e).
Proof.
  intros r. subst r. unfold on_loaded, try_except, bind.
  destruct (get_current_ssid_events env s)
    as (ssid & b & tail & E1 & -> & Htail). rewrite E1. cbn.
  destruct (get_current_bt_name_events env
              (with_self (set_original_ssid (Some ssid)) (ticked s)))
    as (bt & E2). rewrite E2. cbn.
  destruct (get_current_mac_events env
              (with_self (set_original_bt_name (Some bt))
                 (ticked (with_self (set_original_ssid (Some ssid)) (ticked s)))))
    as (mac & E3). rewrite E3. cbn.
  unfold outcome, store, events. cbn [fst snd].
  split; [reflexivity|]. split; [reflexivity|].
  destruct Htail as [-> | [e ->]]; cbn.
  - split; [reflexivity|]. intros m Hm. cases_in Hm.
  - split; [reflexivity|]. intros m Hm. cases_in Hm.
    injection Hm as <-. now exists e.
Qed.

(** A load in which the radio name and the interface cannot be read
    (operations 1 and 2): two failed operations, no error message. *)
Lemma load_reads_three_values_and_reports_one_witness :
  let r := on_loaded (Sample.fails_at2 1 2)
             (mkStore (init Sample.defaults) false 0 0) in
  driver_calls (events r)
  = [Run ReadHostapdConf true; Run (HciGetName "hci0") false;
     Run (Ifconfig "wlan0") false]
  /\ forall m, ~ In (Diag Error m) (events r).
Proof.
  cbv zeta.
  pose proof (load_reads_three_values_and_reports_one (Sample.fails_at2 1 2)
                (mkStore (init Sample.defaults) false 0 0))
    as (_ & _ & Hcalls & Hrep).
  split; [exact Hcalls|].
  intros m Hm. destruct (Hrep m Hm) as [e ->].
  vm_compute in Hm. cases_in Hm.
Defined.
